(** * Asynchronous job client of azure-quantum: model and properties

    A shallow embedding of
      - azure/quantum/aio/job.py        (class Job, module [aio_job] below),
      - azure/quantum/aio/job/job.py    (class Job, module [aio_job_job] below),
      - azure/quantum/aio/workspace.py  (class Workspace, module [aio_workspace];
        its [cancel_job] and [list_jobs] in module [aio_workspace_jobs]).

    Conventions of the model:
      - Python floats are Rocq's primitive binary64 floats, so [0.2],
        [* 1.5], [+=] and [>=] compute what CPython computes; an integer
        argument such as the default ceiling 30 is the float of the same
        value.
      - Strings are [string]s whose characters are code points 0..255.
      - A job object is mutable: the methods run in a state monad over
        the object ([self]) and the world.  An exception leaves the state
        as it was when raised.
      - Calling an [async def] builds a coroutine and runs nothing; only
        [await] runs it.  A coroutine is a computation of the monad, and a
        call that is not awaited is a [let] whose value is not run.
      - The remote services (job API, storage API, blob endpoint) and the
        library functions that parse and decode are a record of oracles;
        every remote call, sleep and print is recorded in a trace.
      - The [while] loops take fuel; [OutOfFuel] is the outcome of a loop
        that has not ended within it.
      - Logging is left out. *)

From Stdlib Require Import String Ascii List Bool Arith ZArith Lia.
From Stdlib Require Import Floats.PrimFloat.
Import ListNotations.

Set Warnings "-inexact-float,-register-all".
Local Open Scope string_scope.

(** ** Data model *)

(** [azure.quantum._client.models.ErrorData]: the server's error payload. *)
Record ErrorData := mkErrorData {
  code : string;
  message : string
}.

(** [azure.quantum._client.models.JobDetails], the fields the client reads. *)
Record JobDetails := mkJobDetails {
  jd_id : string;
  status : string;
  output_data_uri : option string;
  error_data : option ErrorData
}.

(** Values of [json.loads]. *)
Inductive json :=
| JNull
| JBool (b : bool)
| JNumber (n : Z)
| JString (s : string)
| JArray (l : list json)
| JObject (l : list (string * json)).

Definition bytes := list Byte.byte.

(** The credential kept by a Workspace: the caller's, or the
    [_DefaultAzureCredential] built by [Workspace.__init__]. *)
Inductive Credential :=
| UserCredential (c : string)
| DefaultAzureCredential (exclude_interactive_browser_credential : bool)
                         (subscription_id arm_base_url : string).

(** The arguments [Workspace.__init__] hands to [QuantumClient]. *)
Record QuantumClient := mkQuantumClient {
  qc_credential : Credential;
  qc_subscription_id : string;
  qc_resource_group_name : string;
  qc_workspace_name : string;
  qc_base_url : string
}.

Record Workspace := mkWorkspace {
  credentials : Credential;
  name : string;
  resource_group : string;
  subscription_id : string;
  storage : option string;
  location : string;
  _client : QuantumClient
}.

(** The attributes [Job.__init__] sets (both classes set the same four). *)
Record Job := mkJob {
  workspace : Workspace;
  details : JobDetails;
  id : string;
  results : option json
}.

(** [Job.__init__] (job.py 34-38, job/job.py 35-39). *)
Definition Job_init (ws : Workspace) (job_details : JobDetails) : Job :=
  {| workspace := ws;
     details := job_details;
     id := jd_id job_details;
     results := None |}.

Definition set_details (d : JobDetails) (j : Job) : Job :=
  {| workspace := workspace j; details := d; id := id j; results := results j |}.

(** [azure.storage.blob.aio.BlobClient], as [from_blob_url] parses it. *)
Record BlobClient := mkBlobClient {
  url : string;
  account_name : string;
  container_name : string;
  blob_name : string
}.

(** ** Exceptions, outcomes, effects *)

Inductive exn :=
| TimeoutError (timeout_secs : option float)
    (* f"The wait time has exceeded {timeout_secs} seconds." *)
| RuntimeError (job_status : string) (job_error_data : option ErrorData)
    (* "Cannot retrieve results as job execution failed(status: {status}.error: {error_data})" *)
| ValueError (msg : string)
| TypeError
| AttributeError
    (* 'coroutine' object has no attribute 'decode' *)
| ServiceError (what : string).
    (* anything a collaborator raises: transport, API, storage, decoding *)

(** What a collaborator answers. *)
Inductive reply (A : Type) :=
| Reply (a : A)
| Fault (e : exn).
Arguments Reply {A} a.
Arguments Fault {A} e.

(** What a run of the client yields; [OutOfFuel] stands for a polling loop
    that has not ended within the fuel given. *)
Inductive outcome (A : Type) :=
| Ok (a : A)
| Raise (e : exn)
| OutOfFuel.
Arguments Ok {A} a.
Arguments Raise {A} e.
Arguments OutOfFuel {A}.

Inductive event :=
| EvJobsCreate (job_id : string)          (* self._client.jobs.create *)
| EvJobsGet (job_id : string)             (* self._client.jobs.get *)
| EvSasUri (container blob : string)      (* self._client.storage.sas_uri *)
| EvDownloadBlob (c : BlobClient)         (* blob_client.download_blob() *)
| EvSleep (secs : float)                  (* a run of asyncio.sleep(secs) *)
| EvPrint (s : string).                   (* print(s, end="", flush=True) *)

(** The job object under consideration ([self]), the number of
    [jobs.get] calls answered so far, and the effects so far, oldest first. *)
Record state := mkState {
  self : Job;
  gets : nat;
  trace : list event
}.

(** A coroutine: calling an [async def] builds one and runs nothing;
    [await] runs it. *)
Definition M (A : Type) : Type := state -> outcome A * state.

Definition ret {A} (a : A) : M A := fun st => (Ok a, st).

Definition bind {A B} (c : M A) (k : A -> M B) : M B :=
  fun st =>
    match c st with
    | (Ok a, st') => k a st'
    | (Raise e, st') => (Raise e, st')
    | (OutOfFuel, st') => (OutOfFuel, st')
    end.

Definition raise {A} (e : exn) : M A := fun st => (Raise e, st).
Definition out_of_fuel {A} : M A := fun st => (OutOfFuel, st).
Definition await {A} (c : M A) : M A := c.

Notation "x <- c ;; k" := (bind c (fun x => k))
  (at level 61, c at next level, right associativity).
Notation "c ;;; k" := (bind c (fun _ => k))
  (at level 61, right associativity).

Definition get_self : M Job := fun st => (Ok (self st), st).

Definition put_self (j : Job) : M unit :=
  fun st => (Ok tt, {| self := j; gets := gets st; trace := trace st |}).

Definition emit (e : event) : M unit :=
  fun st => (Ok tt, {| self := self st; gets := gets st; trace := trace st ++ [e] |}).

Definition of_reply {A} (r : reply A) : M A :=
  match r with
  | Reply a => ret a
  | Fault e => raise e
  end.

(** What [_download_blob] may be handed as [blob_url]: a string, or the
    coroutine object that an un-awaited call of an [async def] evaluates to. *)
Inductive pyobj :=
| PyStr (s : string)
| PyCoroutine (c : M string).

(** What [get_results] has in [payload]: bytes, or the coroutine object
    that an un-awaited [readall()] of the asynchronous storage SDK
    evaluates to. *)
Inductive payload :=
| PayloadBytes (b : bytes)
| PayloadCoroutine (c : M bytes).

(** The collaborators.  [jobs_get n job_id] is the answer to the [n]-th
    [jobs.get] call (counted from 0), so a job's status can change between
    polls; the others are functions of their arguments.  [download_blob]
    is the answer to [await blob_client.download_blob()]: the body that the
    downloader holds, or the fault of the request. *)
Record Service := mkService {
  jobs_get : nat -> string -> reply JobDetails;
  jobs_create : string -> JobDetails -> reply JobDetails;
  storage_sas_uri : string -> string -> reply string;
  from_blob_url : pyobj -> reply BlobClient;
  download_blob : BlobClient -> reply bytes;
  decode_utf8 : bytes -> reply string;
  json_loads : string -> reply json
}.

(** ** Strings: [str.find] and [urlparse(...).query] *)

Local Open Scope Z_scope.

Fixpoint find_from (sub s : string) (i : Z) : Z :=
  if String.prefix sub s then i
  else match s with
       | EmptyString => -1
       | String _ s' => find_from sub s' (i + 1)
       end.

(** [s.find(sub)]: the lowest index where [sub] occurs in [s], or -1. *)
Definition str_find (s sub : string) : Z := find_from sub s 0.

Fixpoint before_char (c : ascii) (s : string) : string :=
  match s with
  | EmptyString => EmptyString
  | String a s' => if Ascii.eqb a c then EmptyString else String a (before_char c s')
  end.

Fixpoint after_char (c : ascii) (s : string) : string :=
  match s with
  | EmptyString => EmptyString
  | String a s' => if Ascii.eqb a c then s' else after_char c s'
  end.

(** The characters urlsplit removes from a URL before it splits it: tab,
    line feed and carriage return. *)
Definition unsafe_url_char (c : ascii) : bool :=
  Ascii.eqb c (ascii_of_nat 9) || Ascii.eqb c (ascii_of_nat 10)
  || Ascii.eqb c (ascii_of_nat 13).

Fixpoint remove_unsafe (s : string) : string :=
  match s with
  | EmptyString => EmptyString
  | String a s' =>
      if unsafe_url_char a then remove_unsafe s' else String a (remove_unsafe s')
  end.

(** [urllib.parse.urlparse(url).query].  urlsplit removes tab, line feed
    and carriage return (and leading white space, which holds no '?' and
    no '#'), then the scheme and the network location (neither holds a
    '?' or a '#'), cuts the fragment at the first '#', and takes as query
    what follows the first '?' of the rest.  A URL whose network location
    has an unmatched square bracket, on which urlsplit raises ValueError,
    is outside this function: it stands for the query of the URLs that
    urlsplit accepts. *)
Definition urlparse_query (url : string) : string :=
  after_char "?" (before_char "#" (remove_unsafe url)).

Local Close Scope Z_scope.

(** ** The Workspace's remote calls (workspace.py 141-168) *)

Section Client.

Variable svc : Service.

(** [await self._client.jobs.get(job_id)]. *)
Definition client_jobs_get (job_id : string) : M JobDetails :=
  fun st =>
    let st' := {| self := self st;
                  gets := S (gets st);
                  trace := trace st ++ [EvJobsGet job_id] |} in
    match jobs_get svc (gets st) job_id with
    | Reply d => (Ok d, st')
    | Fault e => (Raise e, st')
    end.

(** [await self._client.jobs.create(id, details)]. *)
Definition client_jobs_create (job_id : string) (d : JobDetails) : M JobDetails :=
  emit (EvJobsCreate job_id) ;;; of_reply (jobs_create svc job_id d).

(** [await self._client.storage.sas_uri(blob_details=...)]. *)
Definition client_storage_sas_uri (container blob : string) : M string :=
  emit (EvSasUri container blob) ;;; of_reply (storage_sas_uri svc container blob).

(** [Workspace._get_linked_storage_sas_uri] (workspace.py 141-152). *)
Definition _get_linked_storage_sas_uri (ws : Workspace) (container blob : string)
  : M string :=
  container_uri <- await (client_storage_sas_uri container blob) ;;
  ret container_uri.

(** [Workspace.submit_job] (workspace.py 154-158). *)
Definition submit_job (ws : Workspace) (job : Job) : M Job :=
  d <- await (client_jobs_create (jd_id (details job)) (details job)) ;;
  ret (Job_init ws d).

(** [Workspace.get_job] (workspace.py 165-168). *)
Definition get_job (ws : Workspace) (job_id : string) : M Job :=
  d <- await (client_jobs_get job_id) ;;
  ret (Job_init ws d).

(** [asyncio.sleep(secs)]: the coroutine; it suspends only when awaited. *)
Definition asyncio_sleep (secs : float) : M unit := emit (EvSleep secs).

(** [print(s, end="", flush=True)]. *)
Definition print (s : string) : M unit := emit (EvPrint s).

(** ** What the two Job classes share *)

(** [Job.refresh] (job.py 40-42 and job/job.py 47-49, the same text). *)
Definition refresh : M unit :=
  me <- get_self ;;
  j <- await (get_job (workspace me) (id me)) ;;
  me' <- get_self ;;
  put_self (set_details (details j) me').

(** [has_completed] (job/job.py 51-57; job.py inherits it from the
    synchronous Job class). *)
Definition has_completed (j : Job) : bool :=
  String.eqb (status (details j)) "Succeeded"
  || String.eqb (status (details j)) "Failed"
  || String.eqb (status (details j)) "Cancelled".

(** The update of [poll_wait] at the end of a loop body
    (job.py 57-61, job/job.py 92-96). *)
Definition next_poll_wait (max_poll_wait_secs poll_wait : float) : float :=
  if PrimFloat.leb max_poll_wait_secs poll_wait
  then max_poll_wait_secs
  else PrimFloat.mul poll_wait 1.5%float.

(** [url.query.find("se=") == -1] (job.py 87-88). *)
Definition lacks_sas_token (uri : string) : bool :=
  Z.eqb (str_find (urlparse_query uri) "se=") (-1).

(** [StorageStreamDownloader.readall] of azure.storage.blob.aio: a
    coroutine function; the coroutine, once awaited, yields the body. *)
Definition readall (body : bytes) : M bytes := ret body.

(** [Job._download_blob] (job.py 63-71).  Line 71 awaits
    [blob_client.download_blob()] and returns [.readall()] of the
    downloader without awaiting it: what comes back is the coroutine. *)
Definition _download_blob (blob_url : pyobj) : M payload :=
  blob_client <- of_reply (from_blob_url svc blob_url) ;;
  emit (EvDownloadBlob blob_client) ;;;
  body <- await (of_reply (download_blob svc blob_client)) ;;
  ret (PayloadCoroutine (readall body)).

(** [json.loads(payload.decode("utf8"))]: bytes are decoded and parsed; a
    coroutine object has no [decode]. *)
Definition loads_utf8 (payload : payload) : M json :=
  match payload with
  | PayloadBytes b =>
      text <- of_reply (decode_utf8 svc b) ;;
      of_reply (json_loads svc text)
  | PayloadCoroutine _ => raise AttributeError
  end.

End Client.

(** ** azure/quantum/aio/job.py: class Job(SyncJob) *)

Module aio_job.
Section Methods.

Variable svc : Service.

(** The [while] loop of [wait_until_completed] (job.py 49-61). *)
Fixpoint wait_loop (fuel : nat) (max_poll_wait_secs poll_wait : float) : M unit :=
  match fuel with
  | O => out_of_fuel
  | S fuel' =>
      me <- get_self ;;
      if has_completed me then ret tt
      else
        print "." ;;;
        await (asyncio_sleep poll_wait) ;;;
        await (refresh svc) ;;;
        wait_loop fuel' max_poll_wait_secs
                  (next_poll_wait max_poll_wait_secs poll_wait)
  end.

(** [Job.wait_until_completed] (job.py 44-61). *)
Definition wait_until_completed (fuel : nat) (max_poll_wait_secs : float) : M unit :=
  await (refresh svc) ;;;
  wait_loop fuel max_poll_wait_secs 0.2%float.

(** [Job.get_results] (job.py 73-103). *)
Definition get_results (fuel : nat) : M json :=
  me <- get_self ;;
  match results me with
  | Some r => ret r
  | None =>
      (if negb (has_completed me)
       then await (wait_until_completed fuel 30%float)
       else ret tt) ;;;
      me <- get_self ;;
      if negb (String.eqb (status (details me)) "Succeeded")
      then raise (RuntimeError (status (details me)) (error_data (details me)))
      else
        match output_data_uri (details me) with
        | None => raise TypeError     (* b''.find("se=") *)
        | Some uri =>
            payload <-
              (if lacks_sas_token uri
               then
                 blob_client <- of_reply (from_blob_url svc (PyStr uri)) ;;
                 (* line 94: the coroutine is built and never awaited *)
                 let blob_uri :=
                   _get_linked_storage_sas_uri svc (workspace me)
                     (container_name blob_client) (blob_name blob_client) in
                 await (_download_blob svc (PyCoroutine blob_uri))
               else
                 await (_download_blob svc (PyStr uri))) ;;
            result <- loads_utf8 svc payload ;;
            ret result
        end
  end.

End Methods.
End aio_job.

(** ** azure/quantum/aio/job/job.py: class Job(BaseJob, FilteredJob) *)

Module aio_job_job.
Section Methods.

Variable svc : Service.

(** [Job.submit] (job/job.py 41-45). *)
Definition submit : M unit :=
  me <- get_self ;;
  job <- await (submit_job svc (workspace me) me) ;;
  me' <- get_self ;;
  put_self (set_details (details job) me').

(** [timeout_secs is not None and total_time >= timeout_secs]
    (job/job.py 80). *)
Definition timed_out (timeout_secs : option float) (total_time : float) : bool :=
  match timeout_secs with
  | None => false
  | Some t => PrimFloat.leb t total_time
  end.

(** The [while] loop of [wait_until_completed] (job/job.py 79-96). *)
Fixpoint wait_loop (fuel : nat) (max_poll_wait_secs : float)
    (timeout_secs : option float) (print_progress : bool)
    (poll_wait total_time : float) : M unit :=
  match fuel with
  | O => out_of_fuel
  | S fuel' =>
      me <- get_self ;;
      if has_completed me then ret tt
      else if timed_out timeout_secs total_time
      then raise (TimeoutError timeout_secs)
      else
        (if print_progress then print "." else ret tt) ;;;
        (* line 89: asyncio.sleep(poll_wait), the coroutine is dropped *)
        let _ := asyncio_sleep poll_wait in
        let total_time := PrimFloat.add total_time poll_wait in
        await (refresh svc) ;;;
        wait_loop fuel' max_poll_wait_secs timeout_secs print_progress
          (next_poll_wait max_poll_wait_secs poll_wait) total_time
  end.

(** [Job.wait_until_completed] (job/job.py 59-96). *)
Definition wait_until_completed (fuel : nat) (max_poll_wait_secs : float)
    (timeout_secs : option float) (print_progress : bool) : M unit :=
  await (refresh svc) ;;;
  wait_loop fuel max_poll_wait_secs timeout_secs print_progress
    0.2%float 0%float.

(** Modelled from the spec: the download of section 4.5, which the absent
    azure/quantum/aio/job/base_job.py performs: a connection to the blob
    endpoint is opened by URL and the full body is read into memory. *)
Definition read_blob (blob_url : string) : M payload :=
  blob_client <- of_reply (from_blob_url svc (PyStr blob_url)) ;;
  emit (EvDownloadBlob blob_client) ;;;
  body <- await (of_reply (download_blob svc blob_client)) ;;
  ret (PayloadBytes body).

(** Modelled from the spec: [BaseJob.download_data]
    (azure/quantum/aio/job/base_job.py is not among the sources).  Section
    4.5: a URI that already embeds the shared-access-signature query
    parameter ([se=] present) is used as it is; otherwise the container and
    blob names are extracted from the URI, a fresh SAS URI is requested
    from the Workspace (a remote call), and that URI is downloaded. *)
Definition download_data (blob_uri : option string) : M payload :=
  match blob_uri with
  | None => raise TypeError
  | Some uri =>
      if lacks_sas_token uri
      then
        me <- get_self ;;
        blob_client <- of_reply (from_blob_url svc (PyStr uri)) ;;
        sas <- await (_get_linked_storage_sas_uri svc (workspace me)
                        (container_name blob_client) (blob_name blob_client)) ;;
        await (read_blob sas)
      else await (read_blob uri)
  end.

(** [Job.get_results] (job/job.py 98-123). *)
Definition get_results (fuel : nat) (timeout_secs : option float) : M json :=
  me <- get_self ;;
  match results me with
  | Some r => ret r
  | None =>
      (if negb (has_completed me)
       then await (wait_until_completed fuel 30%float timeout_secs true)
       else ret tt) ;;;
      me <- get_self ;;
      if negb (String.eqb (status (details me)) "Succeeded")
      then raise (RuntimeError (status (details me)) (error_data (details me)))
      else
        payload <- await (download_data (output_data_uri (details me))) ;;
        results <- loads_utf8 svc payload ;;
        ret results
  end.

End Methods.
End aio_job_job.

(** ** azure/quantum/aio/workspace.py: Workspace.__init__ *)

Module aio_workspace.

Local Open Scope nat_scope.

(** Case folding of [re.IGNORECASE] on the pattern's literal characters
    (all of them ASCII). *)
Definition ascii_lower (c : ascii) : ascii :=
  let n := nat_of_ascii c in
  if (65 <=? n) && (n <=? 90) then ascii_of_nat (n + 32) else c.

(** [str.lower] on code points 0..255: A-Z, and the Latin-1 capitals
    192..222 other than the multiplication sign 215. *)
Definition py_lower_char (c : ascii) : ascii :=
  let n := nat_of_ascii c in
  if ((65 <=? n) && (n <=? 90))
     || ((192 <=? n) && (n <=? 222) && negb (n =? 215))
  then ascii_of_nat (n + 32) else c.

(** [\s] and [str.isspace] on code points 0..255. *)
Definition is_space (c : ascii) : bool :=
  let n := nat_of_ascii c in
  ((9 <=? n) && (n <=? 13)) || ((28 <=? n) && (n <=? 32))
  || (n =? 133) || (n =? 160).

(** The class [[a-fA-F0-9-]]. *)
Definition is_hex_dash (c : ascii) : bool :=
  let n := nat_of_ascii c in
  ((48 <=? n) && (n <=? 57)) || ((97 <=? n) && (n <=? 102))
  || ((65 <=? n) && (n <=? 70)) || (n =? 45).

(** The class [[^\s/]]. *)
Definition not_space_slash (c : ascii) : bool :=
  negb (is_space c) && negb (Ascii.eqb c "/").

(** A literal of the pattern, matched ignoring case, at the head of [s]. *)
Fixpoint strip_prefix_ci (lit s : string) : option string :=
  match lit with
  | EmptyString => Some s
  | String l lit' =>
      match s with
      | EmptyString => None
      | String c s' =>
          if Ascii.eqb (ascii_lower c) (ascii_lower l)
          then strip_prefix_ci lit' s'
          else None
      end
  end.

(** A greedy [class*]: the longest prefix in the class, and the rest. *)
Fixpoint span (p : ascii -> bool) (s : string) : string * string :=
  match s with
  | EmptyString => (EmptyString, EmptyString)
  | String c s' =>
      if p c
      then let (a, b) := span p s' in (String c a, b)
      else (EmptyString, s)
  end.

Definition newline : string := String (ascii_of_nat 10) EmptyString.

(** [$]: the end of the string, or just before a newline that ends it. *)
Definition at_dollar (s : string) : bool :=
  String.eqb s "" || String.eqb s newline.

Definition lit_subscriptions : string := "/subscriptions/".
Definition lit_resourceGroups : string := "/resourceGroups/".
Definition lit_providers : string := "/providers/Microsoft.Quantum/Workspaces/".

(** [re.search(regex, resource_id, re.IGNORECASE)] with the regex of
    workspace.py line 81; the three groups when it matches. *)
Definition match_resource_id (resource_id : string)
  : option (string * string * string) :=
  match strip_prefix_ci lit_subscriptions resource_id with
  | None => None
  | Some r1 =>
      let (g1, r2) := span is_hex_dash r1 in
      match strip_prefix_ci lit_resourceGroups r2 with
      | None => None
      | Some r3 =>
          let (g2, r4) := span not_space_slash r3 in
          match strip_prefix_ci lit_providers r4 with
          | None => None
          | Some r5 =>
              let (g3, r6) := span not_space_slash r5 in
              if at_dollar r6 then Some (g1, g2, g3) else None
          end
      end
  end.

(** [not x] for an optional string: [None] and [""] are falsy. *)
Definition falsy (x : option string) : bool :=
  match x with
  | None => true
  | Some s => String.eqb s ""
  end.

Fixpoint filter_string (p : ascii -> bool) (s : string) : string :=
  match s with
  | EmptyString => EmptyString
  | String c s' => if p c then String c (filter_string p s') else filter_string p s'
  end.

Fixpoint map_string (f : ascii -> ascii) (s : string) : string :=
  match s with
  | EmptyString => EmptyString
  | String c s' => String (f c) (map_string f s')
  end.

(** ["".join(location.split()).lower()] (workspace.py 125). *)
Definition normalize_location (location : string) : string :=
  map_string py_lower_char (filter_string (fun c => negb (is_space c)) location).

Definition msg_not_fully_specified : string :=
  "Azure Quantum workspace not fully specified."
  ++ "Please specify either a valid resource ID "
  ++ "or a valid combination of subscription ID,"
  ++ "resource group name, and workspace name.".

Definition msg_no_location : string :=
  "Azure Quantum workspace does not have an associated location. "
  ++ "Please specify the location associated with your workspace.".

Definition from_option (x : option string) : string :=
  match x with
  | Some s => s
  | None => ""
  end.

(** Lines 77-92: the triple after the resource ID, if any, was looked at. *)
Definition resolve_triple (subscription_id resource_group name resource_id : option string)
  : option string * option string * option string :=
  match resource_id with
  | Some rid =>
      match match_resource_id rid with
      | Some (g1, g2, g3) => (Some g1, Some g2, Some g3)
      | None => (subscription_id, resource_group, name)
      end
  | None => (subscription_id, resource_group, name)
  end.

Section Init.

(** [BASE_URL] and [ARM_BASE_URL] of azure/quantum/workspace.py, which is
    not among the sources. *)
Variable BASE_URL : string -> string.
Variable ARM_BASE_URL : string.

(** [Workspace.__init__] (workspace.py 67-139). *)
Definition Workspace_init
    (subscription_id resource_group name storage resource_id location : option string)
    (credential : option Credential) : outcome Workspace :=
  let '(subscription_id, resource_group, name) :=
    resolve_triple subscription_id resource_group name resource_id in
  if falsy subscription_id || falsy resource_group || falsy name
  then Raise (ValueError msg_not_fully_specified)
  else if falsy location
  then Raise (ValueError msg_no_location)
  else
    let subscription_id := from_option subscription_id in
    let credential :=
      match credential with
      | None => DefaultAzureCredential false subscription_id ARM_BASE_URL
      | Some c => c
      end in
    let location := normalize_location (from_option location) in
    Ok {| credentials := credential;
          name := from_option name;
          resource_group := from_option resource_group;
          subscription_id := subscription_id;
          storage := storage;
          location := location;
          _client := {| qc_credential := credential;
                        qc_subscription_id := subscription_id;
                        qc_resource_group_name := from_option resource_group;
                        qc_workspace_name := from_option name;
                        qc_base_url := BASE_URL location |} |}.

End Init.
End aio_workspace.

(** ** Observations on runs *)

Definition is_download (e : event) : bool :=
  match e with EvDownloadBlob _ => true | _ => false end.

Definition is_sas_call (e : event) : bool :=
  match e with EvSasUri _ _ => true | _ => false end.

(** The blob downloads of a trace. *)
Definition downloads (tr : list event) : list event := filter is_download tr.

(** The SAS-resolution calls of a trace. *)
Definition sas_calls (tr : list event) : list event := filter is_sas_call tr.

(** The durations slept, in order. *)
Definition sleeps (tr : list event) : list float :=
  flat_map (fun e => match e with EvSleep d => [d] | _ => [] end) tr.

(** What polling leaves alone: the job's identity, workspace and memo,
    and the blob traffic. *)
Definition poll_frame (st st' : state) : Prop :=
  id (self st') = id (self st)
  /\ workspace (self st') = workspace (self st)
  /\ results (self st') = results (self st)
  /\ downloads (trace st') = downloads (trace st)
  /\ sas_calls (trace st') = sas_calls (trace st).

(** [keeps f c]: running [c] leaves the observation [f] of the state as
    it was, whatever [c] yields. *)
Definition keeps {A B : Type} (f : state -> B) (c : M A) : Prop :=
  forall st, f (snd (c st)) = f st.

(** The memo of the job. *)
Definition memo (st : state) : option json := results (self st).

(** No blob was downloaded and no SAS URI was asked for between two states. *)
Definition no_blob_traffic (st st' : state) : Prop :=
  downloads (trace st') = downloads (trace st)
  /\ sas_calls (trace st') = sas_calls (trace st).

(** ** The states that polling goes through *)

(** The state after a [refresh] that the service answered with [d]. *)
Definition refreshed (d : JobDetails) (st : state) : state :=
  {| self := set_details d (self st);
     gets := S (gets st);
     trace := trace st ++ [EvJobsGet (id (self st))] |}.

(** The state after a [refresh] that the service refused. *)
Definition refused (st : state) : state :=
  {| self := self st;
     gets := S (gets st);
     trace := trace st ++ [EvJobsGet (id (self st))] |}.

Definition printed (print_progress : bool) (st : state) : state :=
  {| self := self st;
     gets := gets st;
     trace := trace st ++ (if print_progress then [EvPrint "."] else []) |}.

(** [answers svc g job_id ds]: the [jobs.get] calls number [g], [g+1], ...
    for [job_id] are answered with the details [ds], in order. *)
Fixpoint answers (svc : Service) (g : nat) (job_id : string)
    (ds : list JobDetails) : Prop :=
  match ds with
  | [] => True
  | d :: ds' => jobs_get svc g job_id = Reply d /\ answers svc (S g) job_id ds'
  end.

(** Whether a status is terminal, as [has_completed] reads it. *)
Definition terminal (d : JobDetails) : bool :=
  String.eqb (status d) "Succeeded"
  || String.eqb (status d) "Failed"
  || String.eqb (status d) "Cancelled".

Definition nonterminal (d : JobDetails) : bool := negb (terminal d).

(** The value of [poll_wait] after [k] more turns of the loop. *)
Fixpoint poll_wait_after (max_poll_wait_secs poll_wait : float) (k : nat) : float :=
  match k with
  | O => poll_wait
  | S k' =>
      poll_wait_after max_poll_wait_secs
        (next_poll_wait max_poll_wait_secs poll_wait) k'
  end.

(** The value of [total_time] after [k] more turns of the loop: the
    intervals of these turns added, in order, to [total_time]. *)
Fixpoint total_time_after (max_poll_wait_secs poll_wait total_time : float)
    (k : nat) : float :=
  match k with
  | O => total_time
  | S k' =>
      total_time_after max_poll_wait_secs
        (next_poll_wait max_poll_wait_secs poll_wait)
        (PrimFloat.add total_time poll_wait) k'
  end.

(** The successive values of [poll_wait], from the seed 0.2. *)
Definition poll_intervals (max_poll_wait_secs : float) (n : nat) : list float :=
  map (poll_wait_after max_poll_wait_secs 0.2%float) (seq 0 n).

(** The update of [poll_wait] in the spec's words:
    [poll_wait = min(poll_wait * 1.5, max_poll_wait_secs)]. *)
Definition spec_next_poll_wait (max_poll_wait_secs poll_wait : float) : float :=
  let grown := PrimFloat.mul poll_wait 1.5%float in
  if PrimFloat.ltb max_poll_wait_secs grown then max_poll_wait_secs else grown.

(** The loop of job/job.py after the refreshes answered [ds]: each turn
    prints (if asked to), sleeps not at all, and refreshes. *)
Fixpoint polled (print_progress : bool) (ds : list JobDetails) (st : state) : state :=
  match ds with
  | [] => st
  | d :: ds' => polled print_progress ds' (refreshed d (printed print_progress st))
  end.

(** The state after the [print] and the awaited [asyncio.sleep] of a turn
    of job.py's loop. *)
Definition slept (poll_wait : float) (st : state) : state :=
  {| self := self st;
     gets := gets st;
     trace := (trace st ++ [EvPrint "."]) ++ [EvSleep poll_wait] |}.

(** The loop of job.py after the refreshes answered [ds]: each turn
    prints, sleeps for the current interval, and refreshes. *)
Fixpoint slept_polled (max_poll_wait_secs poll_wait : float)
    (ds : list JobDetails) (st : state) : state :=
  match ds with
  | [] => st
  | d :: ds' =>
      slept_polled max_poll_wait_secs
        (next_poll_wait max_poll_wait_secs poll_wait) ds'
        (refreshed d (slept poll_wait st))
  end.

(** The state after a completed wait of job/job.py whose refreshes,
    the first one included, were answered [ans]. *)
Definition waited (print_progress : bool) (ans : list JobDetails) (st : state) : state :=
  match ans with
  | [] => st
  | d0 :: ds => polled print_progress ds (refreshed d0 st)
  end.

(** The same for job.py. *)
Definition slept_waited (max_poll_wait_secs : float) (ans : list JobDetails)
    (st : state) : state :=
  match ans with
  | [] => st
  | d0 :: ds => slept_polled max_poll_wait_secs 0.2%float ds (refreshed d0 st)
  end.

(** ** The jobs a program can hold *)

(** The jobs a program can hold: built by [Job.__init__], then driven
    through the methods of the class. *)
Module job_py.

Inductive call :=
| Refresh
| WaitUntilCompleted (fuel : nat) (max_poll_wait_secs : float)
| GetResults (fuel : nat).

Definition run (svc : Service) (c : call) (st : state) : state :=
  match c with
  | Refresh => snd (refresh svc st)
  | WaitUntilCompleted fuel m => snd (aio_job.wait_until_completed svc fuel m st)
  | GetResults fuel => snd (aio_job.get_results svc fuel st)
  end.

Inductive reachable (svc : Service) : state -> Prop :=
| reach_init ws d g tr :
    reachable svc {| self := Job_init ws d; gets := g; trace := tr |}
| reach_call st c :
    reachable svc st -> reachable svc (run svc c st).

End job_py.

Module job_job_py.

Inductive call :=
| Submit
| Refresh
| WaitUntilCompleted (fuel : nat) (max_poll_wait_secs : float)
    (timeout_secs : option float) (print_progress : bool)
| GetResults (fuel : nat) (timeout_secs : option float).

Definition run (svc : Service) (c : call) (st : state) : state :=
  match c with
  | Submit => snd (aio_job_job.submit svc st)
  | Refresh => snd (refresh svc st)
  | WaitUntilCompleted fuel m t p =>
      snd (aio_job_job.wait_until_completed svc fuel m t p st)
  | GetResults fuel t => snd (aio_job_job.get_results svc fuel t st)
  end.

Inductive reachable (svc : Service) : state -> Prop :=
| reach_init ws d g tr :
    reachable svc {| self := Job_init ws d; gets := g; trace := tr |}
| reach_call st c :
    reachable svc st -> reachable svc (run svc c st).

End job_job_py.

(** ** Sample data *)

Module sample.

Definition ws : Workspace :=
  {| credentials := UserCredential "token";
     name := "ws";
     resource_group := "rg";
     subscription_id := "00000000-0000-0000-0000-000000000000";
     storage := None;
     location := "westus";
     _client := {| qc_credential := UserCredential "token";
                   qc_subscription_id := "00000000-0000-0000-0000-000000000000";
                   qc_resource_group_name := "rg";
                   qc_workspace_name := "ws";
                   qc_base_url := "https://westus.quantum.azure.com/" |} |}.

(** A URI that carries a SAS token, one that carries none, one whose
    path (not its query) holds [se=], and one whose query holds [se=]
    only as the tail of another parameter's name. *)
Definition uri_signed : string :=
  "https://acct.blob.core.windows.net/job-1/rawOutputData?sv=2019-02-02&se=2050-01-01&sig=abc".
Definition uri_bare : string :=
  "https://acct.blob.core.windows.net/job-1/rawOutputData".
Definition uri_se_in_path : string :=
  "https://acct.blob.core.windows.net/job-1/se=x".
Definition uri_rose : string :=
  "https://acct.blob.core.windows.net/job-1/rawOutputData?rose=1".

Definition waiting : JobDetails :=
  {| jd_id := "job-1"; status := "Waiting";
     output_data_uri := None; error_data := None |}.

Definition succeeded (uri : string) : JobDetails :=
  {| jd_id := "job-1"; status := "Succeeded";
     output_data_uri := Some uri; error_data := None |}.

Definition failed : JobDetails :=
  {| jd_id := "job-1"; status := "Failed";
     output_data_uri := None;
     error_data := Some {| code := "InsufficientResources";
                           message := "out of qubits" |} |}.

(** A service whose job is Waiting for the first [k] polls and has the
    details [final] from then on.  Its storage SDK refuses a blob URL that
    is not a string. *)
Definition service (k : nat) (final : JobDetails) : Service :=
  {| jobs_get := fun n _ => Reply (if Nat.ltb n k then waiting else final);
     jobs_create := fun _ d => Reply d;
     storage_sas_uri := fun _ _ => Reply uri_signed;
     from_blob_url := fun o =>
       match o with
       | PyStr s => Reply {| url := s; account_name := "acct";
                             container_name := "job-1";
                             blob_name := "rawOutputData" |}
       | PyCoroutine _ => Fault (ValueError "Blob URL must be a string.")
       end;
     download_blob := fun _ => Reply [];
     decode_utf8 := fun _ => Reply "{}";
     json_loads := fun _ => Reply (JObject []) |}.

(** A job just built from [d], in a fresh world. *)
Definition fresh (d : JobDetails) : state :=
  {| self := Job_init ws d; gets := 0; trace := [] |}.

End sample.

(** ** The resource-ID pattern, read as a regular expression *)

Module resource_id_pattern.

Import aio_workspace.

Fixpoint all_chars (p : ascii -> bool) (s : string) : bool :=
  match s with
  | EmptyString => true
  | String c s' => p c && all_chars p s'
  end.

(** Equal up to the case of ASCII letters. *)
Definition ci_equal (a b : string) : Prop :=
  map_string ascii_lower a = map_string ascii_lower b.

(** [matches_pattern s sub rg name]: [s] is, ignoring case in the fixed
    parts, /subscriptions/{sub}/resourceGroups/{rg}/providers/Microsoft.Quantum/Workspaces/{name},
    with [sub] made of hexadecimal digits and dashes, [rg] and [name] free
    of white space and slashes, possibly followed by one final newline. *)
Definition matches_pattern (s sub rg name : string) : Prop :=
  exists l1 l2 l3 tail,
    s = (l1 ++ sub ++ l2 ++ rg ++ l3 ++ name ++ tail)%string
    /\ ci_equal l1 lit_subscriptions
    /\ ci_equal l2 lit_resourceGroups
    /\ ci_equal l3 lit_providers
    /\ all_chars is_hex_dash sub = true
    /\ all_chars not_space_slash rg = true
    /\ all_chars not_space_slash name = true
    /\ (tail = EmptyString \/ tail = newline).

(** What may follow a greedy [class*]: nothing, or a character outside
    the class. *)
Definition stops (p : ascii -> bool) (b : string) : Prop :=
  match b with
  | EmptyString => True
  | String c _ => p c = false
  end.

(** The triple [Workspace.__init__] goes by: the groups of a resource ID
    that matches the pattern, whatever the explicit components are; the
    explicit components when there is no resource ID or it does not
    match. *)
Inductive resolved (subscription_id resource_group name resource_id : option string)
  : option string * option string * option string -> Prop :=
| resolved_by_id rid g1 g2 g3 :
    resource_id = Some rid ->
    matches_pattern rid g1 g2 g3 ->
    resolved subscription_id resource_group name resource_id
      (Some g1, Some g2, Some g3)
| resolved_no_id :
    resource_id = None ->
    resolved subscription_id resource_group name resource_id
      (subscription_id, resource_group, name)
| resolved_malformed_id rid :
    resource_id = Some rid ->
    (forall g1 g2 g3, ~ matches_pattern rid g1 g2 g3) ->
    resolved subscription_id resource_group name resource_id
      (subscription_id, resource_group, name).

(** A triple with a component that is missing or empty. *)
Definition incomplete (t : option string * option string * option string) : Prop :=
  let '(a, b, c) := t in
  falsy a = true \/ falsy b = true \/ falsy c = true.

(** The configuration error of [Workspace.__init__]. *)
Definition is_config_error (r : outcome Workspace) : Prop :=
  exists msg, r = Raise (ValueError msg).

(** The claim's reading of an incomplete triple, in its own words:
    neither a resource ID that matches the pattern nor the explicit
    components supply all three. *)
Definition id_supplies_all_three (resource_id : option string) : Prop :=
  exists rid g1 g2 g3,
    resource_id = Some rid /\ matches_pattern rid g1 g2 g3
    /\ g1 <> EmptyString /\ g2 <> EmptyString /\ g3 <> EmptyString.

Definition explicit_supply_all_three
    (subscription_id resource_group name : option string) : Prop :=
  falsy subscription_id = false /\ falsy resource_group = false
  /\ falsy name = false.

Definition neither_supplies_all_three
    (subscription_id resource_group name resource_id : option string) : Prop :=
  ~ id_supplies_all_three resource_id
  /\ ~ explicit_supply_all_three subscription_id resource_group name.

End resource_id_pattern.

Module sample_workspace.

Definition BASE_URL (location : string) : string :=
  ("https://" ++ location ++ ".quantum.azure.com/")%string.

Definition ARM_BASE_URL : string := "https://management.azure.com/".

Definition resource_id : string :=
  "/subscriptions/f846b2bd-d0e2-4a1d-8141-4c6944a9d387/resourceGroups/rg/providers/Microsoft.Quantum/Workspaces/ws".

(** A resource ID that matches the pattern with an empty subscription. *)
Definition resource_id_no_subscription : string :=
  "/subscriptions//resourceGroups/rg/providers/Microsoft.Quantum/Workspaces/ws".

Definition malformed_resource_id : string :=
  "/subscriptions/f846b2bd/resourceGroups/rg/providers/Microsoft.Quantum/ws".

End sample_workspace.

(** ** More observations on runs *)

(** What a poll of the job [job_id] may add to the trace: a [jobs.get]
    for that job, a print, a sleep. *)
Definition polling_event (job_id : string) (e : event) : bool :=
  match e with
  | EvJobsGet i => String.eqb i job_id
  | EvPrint _ => true
  | EvSleep _ => true
  | _ => false
  end.

(** What a job keeps for life: its id, its workspace and its memo. *)
Definition identity (st : state) : string * Workspace * option json :=
  (id (self st), workspace (self st), results (self st)).

(** [adds_downloads n c]: a run of [c] adds at most [n] blob downloads
    to the trace, and removes none. *)
Definition adds_downloads {A : Type} (n : nat) (c : M A) : Prop :=
  forall st, exists l,
    downloads (trace (snd (c st))) = (downloads (trace st) ++ l)%list
    /\ length l <= n.

(** The state after [_download_blob] fetched the blob of [c]. *)
Definition downloaded (c : BlobClient) (st : state) : state :=
  {| self := self st;
     gets := gets st;
     trace := (trace st ++ [EvDownloadBlob c])%list |}.

(** The state after [submit] sent the job's details. *)
Definition submitted (st : state) : state :=
  {| self := self st;
     gets := gets st;
     trace := (trace st ++ [EvJobsCreate (jd_id (details (self st)))])%list |}.


(** ** Resource IDs in canonical form *)

Module resource_id_format.

Import aio_workspace.

(** The resource ID of a workspace, as the comment of workspace.py 78-80
    writes it. *)
Definition format_resource_id (subscription_id resource_group name : string)
  : string :=
  lit_subscriptions ++ subscription_id ++ lit_resourceGroups ++ resource_group
  ++ lit_providers ++ name.

(** A character without white space. *)
Definition not_space (c : ascii) : bool := negb (is_space c).

End resource_id_format.

(** ** azure/quantum/aio/workspace.py: cancel_job and list_jobs *)

Module aio_workspace_jobs.

(** The remote calls of these two methods. *)
Inductive remote_call :=
| JobsCancel (job_id : string)            (* self._client.jobs.cancel *)
| JobsGet (job_id : string)               (* self._client.jobs.get *)
| JobsList.                               (* self._client.jobs.list *)

(** The job API as the two methods meet it: what it answers to the
    cancel and to the get that follows, and the listing, which yields
    [listed] item by item and then ends, or fails with [list_fault]. *)
Record Directory := mkDirectory {
  cancel_reply : string -> reply unit;
  get_reply : string -> reply JobDetails;
  listed : list JobDetails;
  list_fault : option exn
}.

(** [Workspace.cancel_job] (workspace.py 160-163): the outcome, and the
    remote calls made, in order. *)
Definition cancel_job (dir : Directory) (ws : Workspace) (job : Job)
  : outcome Job * list remote_call :=
  match cancel_reply dir (jd_id (details job)) with
  | Fault e => (Raise e, [JobsCancel (jd_id (details job))])
  | Reply _ =>
      match get_reply dir (id job) with
      | Fault e =>
          (Raise e, [JobsCancel (jd_id (details job)); JobsGet (id job)])
      | Reply d =>
          (Ok (Job_init ws d),
           [JobsCancel (jd_id (details job)); JobsGet (id job)])
      end
  end.

Section ListJobs.

(** [datetime], and [FilteredJob.matches_filter] of
    azure/quantum/aio/job/filtered_job.py, which is not among the sources. *)
Variable datetime : Type.
Variable matches_filter :
  Job -> option string -> option string -> option datetime -> bool.

(** The [async for] loop of [list_jobs] (workspace.py 183-187), with the
    list [result] it appends to. *)
Fixpoint collect (ws : Workspace) (name_match status : option string)
    (created_after : option datetime) (jobs : list JobDetails)
    (result : list Job) : list Job :=
  match jobs with
  | [] => result
  | j :: jobs' =>
      let deserialized_job := Job_init ws j in
      if matches_filter deserialized_job name_match status created_after
      then collect ws name_match status created_after jobs'
             (result ++ [deserialized_job])
      else collect ws name_match status created_after jobs' result
  end.

(** [Workspace.list_jobs] (workspace.py 170-188). *)
Definition list_jobs (dir : Directory) (ws : Workspace)
    (name_match status : option string) (created_after : option datetime)
  : outcome (list Job) * list remote_call :=
  let result := collect ws name_match status created_after (listed dir) [] in
  match list_fault dir with
  | Some e => (Raise e, [JobsList])
  | None => (Ok result, [JobsList])
  end.

End ListJobs.

(** A job as the Workspace hands it out: bound to the Workspace, with an
    empty memo, and with the id of its details. *)
Definition fresh_job (ws : Workspace) (j : Job) : Prop :=
  workspace j = ws /\ results j = None /\ id j = jd_id (details j).

End aio_workspace_jobs.

Module sample_jobs.

(** Three listed jobs, and a filter on the status alone. *)
Definition listing : list JobDetails :=
  [sample.succeeded sample.uri_signed; sample.failed;
   sample.succeeded sample.uri_bare].

Definition directory : aio_workspace_jobs.Directory :=
  {| aio_workspace_jobs.cancel_reply := fun _ => Reply tt;
     aio_workspace_jobs.get_reply := fun _ => Reply sample.waiting;
     aio_workspace_jobs.listed := listing;
     aio_workspace_jobs.list_fault := None |}.

Definition jd_status_of (j : Job) : string := status (details j).

Definition by_status (j : Job) (name_match status : option string)
    (created_after : option nat) : bool :=
  match status with
  | None => true
  | Some s => String.eqb (jd_status_of j) s
  end.

End sample_jobs.

(** ** What a computation can return *)

(** [returns P c]: whenever [c] returns a value, the value satisfies [P]. *)
Definition returns {A : Type} (P : A -> Prop) (c : M A) : Prop :=
  forall st x, fst (c st) = Ok x -> P x.

(** [never_returns c]: no run of [c] returns a value. *)
Definition never_returns {A : Type} (c : M A) : Prop :=
  forall st x, fst (c st) <> Ok x.

(** A payload that is a coroutine object. *)
Definition is_coroutine (p : payload) : Prop :=
  match p with
  | PayloadCoroutine _ => True
  | PayloadBytes _ => False
  end.

(** * Properties *)

Local Open Scope list_scope.

(** ** Polling: [refresh] and the two [wait_until_completed] loops *)

Lemma poll_frame_refl st : poll_frame st st.
Proof. repeat split. Qed.

Lemma poll_frame_trans st1 st2 st3 :
  poll_frame st1 st2 -> poll_frame st2 st3 -> poll_frame st1 st3.
Proof.
  unfold poll_frame. intros (a1 & a2 & a3 & a4 & a5) (b1 & b2 & b3 & b4 & b5).
  repeat split; congruence.
Qed.

Lemma downloads_app tr tr' : downloads (tr ++ tr') = downloads tr ++ downloads tr'.
Proof. apply filter_app. Qed.

Lemma sas_calls_app tr tr' : sas_calls (tr ++ tr') = sas_calls tr ++ sas_calls tr'.
Proof. apply filter_app. Qed.

Lemma sleeps_app tr tr' : sleeps (tr ++ tr') = sleeps tr ++ sleeps tr'.
Proof. apply flat_map_app. Qed.

Lemma poll_frame_refreshed d st : poll_frame st (refreshed d st).
Proof.
  unfold poll_frame, refreshed; simpl.
  rewrite downloads_app, sas_calls_app; simpl. rewrite !app_nil_r. repeat split.
Qed.

Lemma poll_frame_refused st : poll_frame st (refused st).
Proof.
  unfold poll_frame, refused; simpl.
  rewrite downloads_app, sas_calls_app; simpl. rewrite !app_nil_r. repeat split.
Qed.

Lemma poll_frame_printed pp st : poll_frame st (printed pp st).
Proof.
  unfold poll_frame, printed; simpl.
  rewrite downloads_app, sas_calls_app. destruct pp; simpl; rewrite !app_nil_r; repeat split.
Qed.

Lemma poll_frame_slept pw st : poll_frame st (slept pw st).
Proof.
  unfold poll_frame, slept; simpl.
  rewrite !downloads_app, !sas_calls_app; simpl. rewrite !app_nil_r. repeat split.
Qed.

Lemma has_completed_refreshed d st :
  has_completed (self (refreshed d st)) = terminal d.
Proof. reflexivity. Qed.

Lemma nonterminal_false d : nonterminal d = true -> terminal d = false.
Proof. unfold nonterminal. apply negb_true_iff. Qed.

Section Polling.

Variable svc : Service.

Lemma refresh_eq st :
  refresh svc st =
  match jobs_get svc (gets st) (id (self st)) with
  | Reply d => (Ok tt, refreshed d st)
  | Fault e => (Raise e, refused st)
  end.
Proof.
  unfold refresh, get_job, client_jobs_get, await, bind, get_self, put_self, ret.
  simpl. destruct (jobs_get svc (gets st) (id (self st))); reflexivity.
Qed.

Lemma refresh_frame st : poll_frame st (snd (refresh svc st)).
Proof.
  rewrite refresh_eq. destruct (jobs_get svc (gets st) (id (self st))); simpl.
  - apply poll_frame_refreshed.
  - apply poll_frame_refused.
Qed.

Lemma print_eq (pp : bool) st :
  (if pp then print "." else ret tt) st = (Ok tt, printed pp st).
Proof.
  destruct pp; unfold print, emit, ret, printed; simpl.
  - reflexivity.
  - rewrite app_nil_r. destruct st; reflexivity.
Qed.

(** One turn of the loop of job/job.py, as an equation. *)
Lemma job_job_wait_loop_S fuel m t pp pw total st :
  aio_job_job.wait_loop svc (S fuel) m t pp pw total st =
  if has_completed (self st) then (Ok tt, st)
  else if aio_job_job.timed_out t total then (Raise (TimeoutError t), st)
  else match jobs_get svc (gets st) (id (self st)) with
       | Reply d =>
           aio_job_job.wait_loop svc fuel m t pp (next_poll_wait m pw)
             (PrimFloat.add total pw) (refreshed d (printed pp st))
       | Fault e => (Raise e, refused (printed pp st))
       end.
Proof.
  simpl. unfold bind at 1. unfold get_self at 1.
  destruct (has_completed (self st)); [reflexivity|].
  destruct (aio_job_job.timed_out t total); [reflexivity|].
  unfold bind at 1. rewrite print_eq.
  unfold bind at 1. unfold await at 1. rewrite refresh_eq. simpl.
  destruct (jobs_get svc (gets st) (id (self st))); reflexivity.
Qed.

(** One turn of the loop of job.py, as an equation. *)
Lemma job_wait_loop_S fuel m pw st :
  aio_job.wait_loop svc (S fuel) m pw st =
  if has_completed (self st) then (Ok tt, st)
  else match jobs_get svc (gets st) (id (self st)) with
       | Reply d =>
           aio_job.wait_loop svc fuel m (next_poll_wait m pw)
             (refreshed d (slept pw st))
       | Fault e => (Raise e, refused (slept pw st))
       end.
Proof.
  simpl. unfold bind at 1. unfold get_self at 1.
  destruct (has_completed (self st)); [reflexivity|].
  unfold bind at 1. unfold print, emit at 1.
  unfold bind at 1. unfold await at 1, asyncio_sleep, emit at 1.
  unfold bind at 1. unfold await at 1. rewrite refresh_eq. simpl.
  destruct (jobs_get svc (gets st) (id (self st))); reflexivity.
Qed.

Lemma job_job_wait_loop_frame fuel : forall m t pp pw total st,
  poll_frame st (snd (aio_job_job.wait_loop svc fuel m t pp pw total st)).
Proof.
  induction fuel as [|fuel IH]; intros.
  - apply poll_frame_refl.
  - rewrite job_job_wait_loop_S.
    destruct (has_completed (self st)); [apply poll_frame_refl|].
    destruct (aio_job_job.timed_out t total); [apply poll_frame_refl|].
    destruct (jobs_get svc (gets st) (id (self st))).
    + eapply poll_frame_trans; [|apply IH].
      eapply poll_frame_trans; [apply poll_frame_printed|apply poll_frame_refreshed].
    + eapply poll_frame_trans; [apply poll_frame_printed|apply poll_frame_refused].
Qed.

Lemma job_wait_loop_frame fuel : forall m pw st,
  poll_frame st (snd (aio_job.wait_loop svc fuel m pw st)).
Proof.
  induction fuel as [|fuel IH]; intros.
  - apply poll_frame_refl.
  - rewrite job_wait_loop_S.
    destruct (has_completed (self st)); [apply poll_frame_refl|].
    destruct (jobs_get svc (gets st) (id (self st))).
    + eapply poll_frame_trans; [|apply IH].
      eapply poll_frame_trans; [apply poll_frame_slept|apply poll_frame_refreshed].
    + eapply poll_frame_trans; [apply poll_frame_slept|apply poll_frame_refused].
Qed.

Lemma job_job_wait_eq fuel m t pp st :
  aio_job_job.wait_until_completed svc fuel m t pp st =
  match jobs_get svc (gets st) (id (self st)) with
  | Reply d => aio_job_job.wait_loop svc fuel m t pp 0.2%float 0%float (refreshed d st)
  | Fault e => (Raise e, refused st)
  end.
Proof.
  unfold aio_job_job.wait_until_completed, bind, await. rewrite refresh_eq.
  destruct (jobs_get svc (gets st) (id (self st))); reflexivity.
Qed.

Lemma job_wait_eq fuel m st :
  aio_job.wait_until_completed svc fuel m st =
  match jobs_get svc (gets st) (id (self st)) with
  | Reply d => aio_job.wait_loop svc fuel m 0.2%float (refreshed d st)
  | Fault e => (Raise e, refused st)
  end.
Proof.
  unfold aio_job.wait_until_completed, bind, await. rewrite refresh_eq.
  destruct (jobs_get svc (gets st) (id (self st))); reflexivity.
Qed.

Lemma job_job_wait_frame fuel m t pp st :
  poll_frame st (snd (aio_job_job.wait_until_completed svc fuel m t pp st)).
Proof.
  rewrite job_job_wait_eq. destruct (jobs_get svc (gets st) (id (self st))).
  - eapply poll_frame_trans; [apply poll_frame_refreshed|apply job_job_wait_loop_frame].
  - apply poll_frame_refused.
Qed.

Lemma job_wait_frame fuel m st :
  poll_frame st (snd (aio_job.wait_until_completed svc fuel m st)).
Proof.
  rewrite job_wait_eq. destruct (jobs_get svc (gets st) (id (self st))).
  - eapply poll_frame_trans; [apply poll_frame_refreshed|apply job_wait_loop_frame].
  - apply poll_frame_refused.
Qed.

End Polling.

(** ** Observations kept by the monad's operations *)

Section Keeps.

Context {B : Type} (f : state -> B).

Lemma keeps_ret {A} (a : A) : keeps f (ret a).
Proof. intro st; reflexivity. Qed.

Lemma keeps_raise {A} (e : exn) : keeps f (@raise A e).
Proof. intro st; reflexivity. Qed.

Lemma keeps_get_self : keeps f get_self.
Proof. intro st; reflexivity. Qed.

Lemma keeps_of_reply {A} (r : reply A) : keeps f (of_reply r).
Proof. destruct r; intro st; reflexivity. Qed.

Lemma keeps_bind {A C} (c : M A) (k : A -> M C) :
  keeps f c -> (forall a, keeps f (k a)) -> keeps f (bind c k).
Proof.
  intros Hc Hk st. unfold bind. specialize (Hc st).
  destruct (c st) as [[a|e|] st1]; simpl in *; auto.
  rewrite Hk. exact Hc.
Qed.

Lemma keeps_if {A} (b : bool) (c1 c2 : M A) :
  keeps f c1 -> keeps f c2 -> keeps f (if b then c1 else c2).
Proof. destruct b; auto. Qed.

End Keeps.

Lemma keeps_memo_emit e : keeps memo (emit e).
Proof. intro st; reflexivity. Qed.

Lemma keeps_sas_emit e :
  is_sas_call e = false -> keeps (fun st => sas_calls (trace st)) (emit e).
Proof.
  intros He st. unfold emit; simpl. rewrite sas_calls_app. simpl. rewrite He.
  apply app_nil_r.
Qed.

Section Results.

Variable svc : Service.

Lemma keeps_memo_download o : keeps memo (_download_blob svc o).
Proof.
  unfold _download_blob, await.
  apply keeps_bind; [apply keeps_of_reply|intro].
  apply keeps_bind; [apply keeps_memo_emit|intro].
  apply keeps_bind; [apply keeps_of_reply|intro]. apply keeps_ret.
Qed.

Lemma keeps_memo_read_blob u : keeps memo (aio_job_job.read_blob svc u).
Proof.
  unfold aio_job_job.read_blob, await.
  apply keeps_bind; [apply keeps_of_reply|intro].
  apply keeps_bind; [apply keeps_memo_emit|intro].
  apply keeps_bind; [apply keeps_of_reply|intro]. apply keeps_ret.
Qed.

Lemma keeps_sas_download o :
  keeps (fun st => sas_calls (trace st)) (_download_blob svc o).
Proof.
  unfold _download_blob, await.
  apply keeps_bind; [apply keeps_of_reply|intro].
  apply keeps_bind; [apply keeps_sas_emit; reflexivity|intro].
  apply keeps_bind; [apply keeps_of_reply|intro]. apply keeps_ret.
Qed.

Lemma keeps_loads {B} (f : state -> B) payload : keeps f (loads_utf8 svc payload).
Proof.
  unfold loads_utf8. destruct payload; [|apply keeps_raise].
  apply keeps_bind; [apply keeps_of_reply|intro]. apply keeps_of_reply.
Qed.

Lemma keeps_memo_refresh : keeps memo (refresh svc).
Proof. intro st. apply (refresh_frame svc st). Qed.

Lemma keeps_memo_job_wait fuel m : keeps memo (aio_job.wait_until_completed svc fuel m).
Proof. intro st. apply (job_wait_frame svc fuel m st). Qed.

Lemma keeps_sas_job_wait fuel m :
  keeps (fun st => sas_calls (trace st)) (aio_job.wait_until_completed svc fuel m).
Proof. intro st. apply (job_wait_frame svc fuel m st). Qed.

Lemma keeps_memo_job_job_wait fuel m t pp :
  keeps memo (aio_job_job.wait_until_completed svc fuel m t pp).
Proof. intro st. apply (job_job_wait_frame svc fuel m t pp st). Qed.

(** [get_results] of job.py never writes the memo. *)
Lemma job_get_results_keeps_memo fuel : keeps memo (aio_job.get_results svc fuel).
Proof.
  unfold aio_job.get_results.
  apply keeps_bind; [apply keeps_get_self|intro me].
  destruct (results me); [apply keeps_ret|].
  apply keeps_bind.
  { apply keeps_if; [apply keeps_memo_job_wait|apply keeps_ret]. }
  intros _. apply keeps_bind; [apply keeps_get_self|intro me'].
  apply keeps_if; [apply keeps_raise|].
  destruct (output_data_uri (details me')); [|apply keeps_raise].
  apply keeps_bind.
  { apply keeps_if.
    - apply keeps_bind; [apply keeps_of_reply|intro]. apply keeps_memo_download.
    - apply keeps_memo_download. }
  intro. apply keeps_bind; [apply keeps_loads|intro]. apply keeps_ret.
Qed.

(** [get_results] of job.py never runs the SAS resolution. *)
Lemma job_get_results_keeps_sas fuel :
  keeps (fun st => sas_calls (trace st)) (aio_job.get_results svc fuel).
Proof.
  unfold aio_job.get_results.
  apply keeps_bind; [apply keeps_get_self|intro me].
  destruct (results me); [apply keeps_ret|].
  apply keeps_bind.
  { apply keeps_if; [apply keeps_sas_job_wait|apply keeps_ret]. }
  intros _. apply keeps_bind; [apply keeps_get_self|intro me'].
  apply keeps_if; [apply keeps_raise|].
  destruct (output_data_uri (details me')); [|apply keeps_raise].
  apply keeps_bind.
  { apply keeps_if.
    - apply keeps_bind; [apply keeps_of_reply|intro]. apply keeps_sas_download.
    - apply keeps_sas_download. }
  intro. apply keeps_bind; [apply keeps_loads|intro]. apply keeps_ret.
Qed.

Lemma keeps_memo_download_data uri : keeps memo (aio_job_job.download_data svc uri).
Proof.
  unfold aio_job_job.download_data. destruct uri; [|apply keeps_raise].
  apply keeps_if; [|apply keeps_memo_read_blob].
  apply keeps_bind; [apply keeps_get_self|intro].
  apply keeps_bind; [apply keeps_of_reply|intro].
  apply keeps_bind; [|intro; apply keeps_memo_read_blob].
  unfold await, _get_linked_storage_sas_uri, client_storage_sas_uri.
  apply keeps_bind; [|intro; apply keeps_ret].
  apply keeps_bind; [apply keeps_memo_emit|intro; apply keeps_of_reply].
Qed.

(** [get_results] of job/job.py never writes the memo. *)
Lemma job_job_get_results_keeps_memo fuel t :
  keeps memo (aio_job_job.get_results svc fuel t).
Proof.
  unfold aio_job_job.get_results.
  apply keeps_bind; [apply keeps_get_self|intro me].
  destruct (results me); [apply keeps_ret|].
  apply keeps_bind.
  { apply keeps_if; [apply keeps_memo_job_job_wait|apply keeps_ret]. }
  intros _. apply keeps_bind; [apply keeps_get_self|intro me'].
  apply keeps_if; [apply keeps_raise|].
  apply keeps_bind; [apply keeps_memo_download_data|intro].
  apply keeps_bind; [apply keeps_loads|intro]. apply keeps_ret.
Qed.


Lemma keeps_memo_submit : keeps memo (aio_job_job.submit svc).
Proof.
  intro st.
  unfold aio_job_job.submit, submit_job, client_jobs_create, await, bind,
    get_self, put_self, emit, of_reply, ret, raise, memo; simpl.
  destruct (jobs_create svc (jd_id (details (self st))) (details (self st)));
    reflexivity.
Qed.

Lemma job_reachable_memo st : job_py.reachable svc st -> memo st = None.
Proof.
  induction 1 as [ws d g tr|st c _ IH]; [reflexivity|].
  rewrite <- IH. destruct c; simpl.
  - apply keeps_memo_refresh.
  - apply keeps_memo_job_wait.
  - apply job_get_results_keeps_memo.
Qed.

Lemma job_job_reachable_memo st : job_job_py.reachable svc st -> memo st = None.
Proof.
  induction 1 as [ws d g tr|st c _ IH]; [reflexivity|].
  rewrite <- IH. destruct c; simpl.
  - apply keeps_memo_submit.
  - apply keeps_memo_refresh.
  - apply keeps_memo_job_job_wait.
  - apply job_job_get_results_keeps_memo.
Qed.

End Results.

(** ** Runs of the polling loops *)

Lemma polled_app pp ds ds' st :
  polled pp (ds ++ ds') st = polled pp ds' (polled pp ds st).
Proof. revert st; induction ds as [|d ds IH]; intros; simpl; auto. Qed.

Lemma polled_id pp ds : forall st, id (self (polled pp ds st)) = id (self st).
Proof. induction ds as [|d ds IH]; intros; simpl; auto. rewrite IH. reflexivity. Qed.

Lemma polled_gets pp ds : forall st, gets (polled pp ds st) = length ds + gets st.
Proof.
  induction ds as [|d ds IH]; intros; simpl; auto. rewrite IH. simpl. lia.
Qed.

Lemma polled_not_completed pp ds : forall st,
  has_completed (self st) = false ->
  forallb nonterminal ds = true ->
  has_completed (self (polled pp ds st)) = false.
Proof.
  induction ds as [|d ds IH]; intros st Hc Hn; simpl in *; auto.
  apply andb_true_iff in Hn as [Hd Hn]. apply IH; auto.
  unfold nonterminal in Hd. apply negb_true_iff in Hd. exact Hd.
Qed.

Lemma polled_frame pp ds : forall st, poll_frame st (polled pp ds st).
Proof.
  induction ds as [|d ds IH]; intros; simpl; [apply poll_frame_refl|].
  eapply poll_frame_trans; [|apply IH].
  eapply poll_frame_trans; [apply poll_frame_printed|apply poll_frame_refreshed].
Qed.

Lemma polled_sleeps pp ds : forall st,
  sleeps (trace (polled pp ds st)) = sleeps (trace st).
Proof.
  induction ds as [|d ds IH]; intros; simpl; auto.
  rewrite IH. simpl. rewrite !sleeps_app. destruct pp; simpl; rewrite !app_nil_r; auto.
Qed.

Lemma slept_polled_app m ds : forall pw ds' st,
  slept_polled m pw (ds ++ ds') st =
  slept_polled m (poll_wait_after m pw (length ds)) ds' (slept_polled m pw ds st).
Proof. induction ds as [|d ds IH]; intros; simpl; auto. Qed.

Lemma slept_polled_id m ds : forall pw st,
  id (self (slept_polled m pw ds st)) = id (self st).
Proof. induction ds as [|d ds IH]; intros; simpl; auto. rewrite IH. reflexivity. Qed.

Lemma slept_polled_gets m ds : forall pw st,
  gets (slept_polled m pw ds st) = length ds + gets st.
Proof.
  induction ds as [|d ds IH]; intros; simpl; auto. rewrite IH. simpl. lia.
Qed.

Lemma slept_polled_not_completed m ds : forall pw st,
  has_completed (self st) = false ->
  forallb nonterminal ds = true ->
  has_completed (self (slept_polled m pw ds st)) = false.
Proof.
  induction ds as [|d ds IH]; intros pw st Hc Hn; simpl in *; auto.
  apply andb_true_iff in Hn as [Hd Hn]. apply IH; auto.
  apply nonterminal_false in Hd. exact Hd.
Qed.

Lemma slept_polled_frame m ds : forall pw st,
  poll_frame st (slept_polled m pw ds st).
Proof.
  induction ds as [|d ds IH]; intros; simpl; [apply poll_frame_refl|].
  eapply poll_frame_trans; [|apply IH].
  eapply poll_frame_trans; [apply poll_frame_slept|apply poll_frame_refreshed].
Qed.

Lemma answers_app svc g i ds ds' :
  answers svc g i (ds ++ ds') <->
  answers svc g i ds /\ answers svc (length ds + g) i ds'.
Proof.
  revert g; induction ds as [|d ds IH]; intros; simpl.
  - tauto.
  - rewrite IH. replace (length ds + S g) with (S (length ds + g)) by lia. tauto.
Qed.

Lemma total_time_after_S m k : forall pw total,
  total_time_after m pw total (S k) =
  PrimFloat.add (total_time_after m pw total k) (poll_wait_after m pw k).
Proof.
  induction k as [|k IH]; intros; [reflexivity|].
  change (total_time_after m pw total (S (S k)))
    with (total_time_after m (next_poll_wait m pw) (PrimFloat.add total pw) (S k)).
  rewrite IH. reflexivity.
Qed.

Section Runs.

Variable svc : Service.

(** The loop of job/job.py runs through refreshes that find the job
    not terminal, as long as the budget is not used up. *)
Lemma job_job_wait_loop_polls ds : forall fuel m t pp pw total st,
  has_completed (self st) = false ->
  answers svc (gets st) (id (self st)) ds ->
  forallb nonterminal ds = true ->
  (forall j, j < length ds ->
     aio_job_job.timed_out t (total_time_after m pw total j) = false) ->
  aio_job_job.wait_loop svc (length ds + fuel) m t pp pw total st =
  aio_job_job.wait_loop svc fuel m t pp
    (poll_wait_after m pw (length ds))
    (total_time_after m pw total (length ds))
    (polled pp ds st).
Proof.
  induction ds as [|d ds IH]; intros fuel m t pp pw total st Hc Ha Hn Ht.
  - reflexivity.
  - simpl in Ha. destruct Ha as [Hd Ha].
    simpl in Hn. apply andb_true_iff in Hn as [Hd' Hn].
    change (length (d :: ds) + fuel) with (S (length ds + fuel)).
    rewrite job_job_wait_loop_S, Hc.
    assert (H0 : aio_job_job.timed_out t total = false)
      by (apply (Ht 0); simpl; lia).
    rewrite H0, Hd.
    rewrite IH; auto.
    + unfold nonterminal in Hd'. apply negb_true_iff in Hd'. exact Hd'.
    + intros j Hj. apply (Ht (S j)). simpl; lia.
Qed.

(** The loop of job.py runs through refreshes that find the job not
    terminal. *)
Lemma job_wait_loop_polls ds : forall fuel m pw st,
  has_completed (self st) = false ->
  answers svc (gets st) (id (self st)) ds ->
  forallb nonterminal ds = true ->
  aio_job.wait_loop svc (length ds + fuel) m pw st =
  aio_job.wait_loop svc fuel m (poll_wait_after m pw (length ds))
    (slept_polled m pw ds st).
Proof.
  induction ds as [|d ds IH]; intros fuel m pw st Hc Ha Hn.
  - reflexivity.
  - simpl in Ha. destruct Ha as [Hd Ha].
    simpl in Hn. apply andb_true_iff in Hn as [Hd' Hn].
    change (length (d :: ds) + fuel) with (S (length ds + fuel)).
    rewrite job_wait_loop_S, Hc, Hd.
    rewrite IH; auto.
    unfold nonterminal in Hd'. apply negb_true_iff in Hd'. exact Hd'.
Qed.

(** A wait of job/job.py returns once a refresh finds the job terminal,
    if the budget lasts until then and the fuel is enough. *)
Lemma job_job_wait_completes pre dT fuel m t pp st :
  answers svc (gets st) (id (self st)) (pre ++ [dT]) ->
  forallb nonterminal pre = true ->
  terminal dT = true ->
  (forall j, j < length pre ->
     aio_job_job.timed_out t (total_time_after m 0.2%float 0%float j) = false) ->
  length pre < fuel ->
  aio_job_job.wait_until_completed svc fuel m t pp st =
  (Ok tt, waited pp (pre ++ [dT]) st).
Proof.
  intros Ha Hn HT Ht Hf. rewrite job_job_wait_eq.
  destruct pre as [|d0 ds].
  - simpl in Ha. destruct Ha as [Hd _]. rewrite Hd.
    destruct fuel as [|fuel]; [simpl in Hf; lia|].
    rewrite job_job_wait_loop_S, has_completed_refreshed, HT. reflexivity.
  - simpl in Ha. destruct Ha as [Hd Ha]. rewrite Hd.
    simpl in Hn. apply andb_true_iff in Hn as [Hd0 Hn].
    apply nonterminal_false in Hd0.
    apply answers_app in Ha as [Ha Hl]. simpl in Hl. destruct Hl as [Hl _].
    simpl in Hf.
    set (st1 := refreshed d0 st).
    assert (Hg : jobs_get svc (gets (polled pp ds st1)) (id (self (polled pp ds st1)))
                 = Reply dT).
    { rewrite polled_gets, polled_id. exact Hl. }
    replace fuel with (length ds + S (S (fuel - length ds - 2))) by lia.
    rewrite job_job_wait_loop_polls; auto.
    + rewrite job_job_wait_loop_S.
      rewrite polled_not_completed by auto.
      rewrite (Ht (length ds)) by (simpl; lia).
      rewrite Hg.
      rewrite job_job_wait_loop_S, has_completed_refreshed, HT.
      unfold waited. change ((d0 :: ds) ++ [dT]) with (d0 :: (ds ++ [dT])).
      cbv iota. rewrite polled_app. reflexivity.
    + intros j Hj. apply Ht. simpl; lia.
Qed.

(** A wait of job.py returns once a refresh finds the job terminal, if
    the fuel is enough. *)
Lemma job_wait_completes pre dT fuel m st :
  answers svc (gets st) (id (self st)) (pre ++ [dT]) ->
  forallb nonterminal pre = true ->
  terminal dT = true ->
  length pre < fuel ->
  aio_job.wait_until_completed svc fuel m st =
  (Ok tt, slept_waited m (pre ++ [dT]) st).
Proof.
  intros Ha Hn HT Hf. rewrite job_wait_eq.
  destruct pre as [|d0 ds].
  - simpl in Ha. destruct Ha as [Hd _]. rewrite Hd.
    destruct fuel as [|fuel]; [simpl in Hf; lia|].
    rewrite job_wait_loop_S, has_completed_refreshed, HT. reflexivity.
  - simpl in Ha. destruct Ha as [Hd Ha]. rewrite Hd.
    simpl in Hn. apply andb_true_iff in Hn as [Hd0 Hn].
    apply nonterminal_false in Hd0.
    apply answers_app in Ha as [Ha Hl]. simpl in Hl. destruct Hl as [Hl _].
    simpl in Hf.
    set (st1 := refreshed d0 st).
    assert (Hg : jobs_get svc (gets (slept_polled m 0.2%float ds st1))
                   (id (self (slept_polled m 0.2%float ds st1))) = Reply dT).
    { rewrite slept_polled_gets, slept_polled_id. exact Hl. }
    replace fuel with (length ds + S (S (fuel - length ds - 2))) by lia.
    rewrite job_wait_loop_polls; auto.
    rewrite job_wait_loop_S.
    rewrite slept_polled_not_completed by auto.
    cbn [slept self gets id].
    rewrite Hg.
    rewrite job_wait_loop_S, has_completed_refreshed, HT.
    unfold slept_waited. change ((d0 :: ds) ++ [dT]) with (d0 :: (ds ++ [dT])).
    cbv iota. rewrite slept_polled_app. reflexivity.
Qed.

End Runs.

Section MoreRuns.

Variable svc : Service.

Lemma job_job_wait_loop_times_out fuel m t pp pw total st :
  has_completed (self st) = false ->
  PrimFloat.leb t total = true ->
  aio_job_job.wait_loop svc (S fuel) m (Some t) pp pw total st =
  (Raise (TimeoutError (Some t)), st).
Proof.
  intros Hc Ht. rewrite job_job_wait_loop_S, Hc. simpl. rewrite Ht. reflexivity.
Qed.

Lemma job_job_wait_loop_sleeps fuel : forall m t pp pw total st,
  sleeps (trace (snd (aio_job_job.wait_loop svc fuel m t pp pw total st)))
  = sleeps (trace st).
Proof.
  induction fuel as [|fuel IH]; intros; [reflexivity|].
  rewrite job_job_wait_loop_S.
  destruct (has_completed (self st)); [reflexivity|].
  destruct (aio_job_job.timed_out t total); [reflexivity|].
  destruct (jobs_get svc (gets st) (id (self st))).
  - rewrite IH. simpl. rewrite !sleeps_app.
    destruct pp; simpl; rewrite !app_nil_r; reflexivity.
  - simpl. rewrite !sleeps_app.
    destruct pp; simpl; rewrite !app_nil_r; reflexivity.
Qed.

Lemma job_job_wait_sleeps fuel m t pp st :
  sleeps (trace (snd (aio_job_job.wait_until_completed svc fuel m t pp st)))
  = sleeps (trace st).
Proof.
  rewrite job_job_wait_eq. destruct (jobs_get svc (gets st) (id (self st))).
  - rewrite job_job_wait_loop_sleeps. simpl. rewrite sleeps_app. simpl.
    apply app_nil_r.
  - simpl. rewrite sleeps_app. simpl. apply app_nil_r.
Qed.

Lemma waited_details pp pre dT st :
  details (self (waited pp (pre ++ [dT]) st)) = dT.
Proof.
  destruct pre as [|d0 ds]; simpl; [reflexivity|].
  rewrite polled_app. reflexivity.
Qed.

Lemma slept_waited_details m pre dT st :
  details (self (slept_waited m (pre ++ [dT]) st)) = dT.
Proof.
  destruct pre as [|d0 ds]; simpl; [reflexivity|].
  rewrite slept_polled_app. reflexivity.
Qed.

Lemma waited_frame pp ans st : poll_frame st (waited pp ans st).
Proof.
  destruct ans as [|d0 ds]; simpl; [apply poll_frame_refl|].
  eapply poll_frame_trans; [apply poll_frame_refreshed|apply polled_frame].
Qed.

Lemma slept_waited_frame m ans st : poll_frame st (slept_waited m ans st).
Proof.
  destruct ans as [|d0 ds]; simpl; [apply poll_frame_refl|].
  eapply poll_frame_trans; [apply poll_frame_refreshed|apply slept_polled_frame].
Qed.

Lemma poll_frame_no_blob_traffic st st' : poll_frame st st' -> no_blob_traffic st st'.
Proof. intros (_ & _ & _ & H1 & H2). split; assumption. Qed.

Lemma poll_frame_memo st st' : poll_frame st st' -> memo st' = memo st.
Proof. intros (_ & _ & H & _). exact H. Qed.

(** [get_results] of job/job.py on a job with an empty memo and a cached
    terminal status other than Succeeded. *)
Lemma job_job_get_results_cached_failure fuel t st :
  memo st = None ->
  has_completed (self st) = true ->
  status (details (self st)) <> "Succeeded" ->
  aio_job_job.get_results svc fuel t st =
  (Raise (RuntimeError (status (details (self st))) (error_data (details (self st)))), st).
Proof.
  intros Hm Hc Hs. apply String.eqb_neq in Hs.
  unfold aio_job_job.get_results, bind, get_self. unfold memo in Hm.
  rewrite Hm, Hc. simpl. rewrite Hs. reflexivity.
Qed.

Lemma job_get_results_cached_failure fuel st :
  memo st = None ->
  has_completed (self st) = true ->
  status (details (self st)) <> "Succeeded" ->
  aio_job.get_results svc fuel st =
  (Raise (RuntimeError (status (details (self st))) (error_data (details (self st)))), st).
Proof.
  intros Hm Hc Hs. apply String.eqb_neq in Hs.
  unfold aio_job.get_results, bind, get_self. unfold memo in Hm.
  rewrite Hm, Hc. simpl. rewrite Hs. reflexivity.
Qed.

(** The same when the job is found terminal only after waiting. *)
Lemma job_job_get_results_waited_failure pre dT fuel t st :
  memo st = None ->
  has_completed (self st) = false ->
  answers svc (gets st) (id (self st)) (pre ++ [dT]) ->
  forallb nonterminal pre = true ->
  terminal dT = true ->
  status dT <> "Succeeded" ->
  (forall j, j < length pre ->
     aio_job_job.timed_out t (total_time_after 30%float 0.2%float 0%float j) = false) ->
  length pre < fuel ->
  aio_job_job.get_results svc fuel t st =
  (Raise (RuntimeError (status dT) (error_data dT)), waited true (pre ++ [dT]) st).
Proof.
  intros Hm Hc Ha Hn HT Hs Ht Hf. apply String.eqb_neq in Hs.
  unfold aio_job_job.get_results. unfold bind at 1. unfold get_self at 1.
  unfold memo in Hm. rewrite Hm, Hc. cbn [negb].
  unfold bind at 1. unfold await at 1.
  rewrite (job_job_wait_completes svc pre dT) by assumption.
  unfold bind at 1. unfold get_self at 1.
  rewrite waited_details, Hs. reflexivity.
Qed.

Lemma job_get_results_waited_failure pre dT fuel st :
  memo st = None ->
  has_completed (self st) = false ->
  answers svc (gets st) (id (self st)) (pre ++ [dT]) ->
  forallb nonterminal pre = true ->
  terminal dT = true ->
  status dT <> "Succeeded" ->
  length pre < fuel ->
  aio_job.get_results svc fuel st =
  (Raise (RuntimeError (status dT) (error_data dT)),
   slept_waited 30%float (pre ++ [dT]) st).
Proof.
  intros Hm Hc Ha Hn HT Hs Hf. apply String.eqb_neq in Hs.
  unfold aio_job.get_results. unfold bind at 1. unfold get_self at 1.
  unfold memo in Hm. rewrite Hm, Hc. cbn [negb].
  unfold bind at 1. unfold await at 1.
  rewrite (job_wait_completes svc pre dT) by assumption.
  unfold bind at 1. unfold get_self at 1.
  rewrite slept_waited_details, Hs. reflexivity.
Qed.

End MoreRuns.

(** ** The claims about jobs *)

(** C9.  A call of [refresh] replaces the cached details, wholesale, by
    the details just fetched, and nothing else of the job: [id],
    [workspace] and [results] are as before, so a populated memo survives
    every refresh.  (When the fetch fails the details stay as well.) *)
Theorem refresh_replaces_only_details (svc : Service) (st : state) :
  let r := fst (refresh svc st) in
  let st' := snd (refresh svc st) in
  id (self st') = id (self st)
  /\ workspace (self st') = workspace (self st)
  /\ results (self st') = results (self st)
  /\ trace st' = trace st ++ [EvJobsGet (id (self st))]
  /\ match jobs_get svc (gets st) (id (self st)) with
     | Reply d => r = Ok tt /\ details (self st') = d
     | Fault e => r = Raise e /\ details (self st') = details (self st)
     end.
Proof.
  cbv zeta. rewrite refresh_eq.
  destruct (jobs_get svc (gets st) (id (self st))); simpl; repeat split.
Qed.

(** C4.  [wait_until_completed] of job/job.py with a budget [t]: when the
    first refresh and the [length ds] refreshes of the loop all find the
    job not terminal, and the elapsed time (the intervals of the turns so
    far, added up) reaches [t] for the first time after these turns, the
    call raises the timeout error in the state these refreshes left: no
    further sleep, print or refresh happens.  With the budget 0 it raises
    right after the first refresh. *)
Theorem wait_until_completed_times_out (svc : Service) (m : float) (pp : bool)
    (st : state) (d0 : JobDetails) :
  jobs_get svc (gets st) (id (self st)) = Reply d0 ->
  terminal d0 = false ->
  (forall fuel,
     aio_job_job.wait_until_completed svc (S fuel) m (Some 0%float) pp st =
     (Raise (TimeoutError (Some 0%float)), refreshed d0 st))
  /\
  (forall t ds fuel,
     answers svc (S (gets st)) (id (self st)) ds ->
     forallb nonterminal ds = true ->
     (forall j, j < length ds ->
        PrimFloat.leb t (total_time_after m 0.2%float 0%float j) = false) ->
     PrimFloat.leb t (total_time_after m 0.2%float 0%float (length ds)) = true ->
     length ds < fuel ->
     aio_job_job.wait_until_completed svc fuel m (Some t) pp st =
     (Raise (TimeoutError (Some t)), polled pp ds (refreshed d0 st))).
Proof.
  intros Hd HT. split.
  - intro fuel. rewrite job_job_wait_eq, Hd.
    apply job_job_wait_loop_times_out; [rewrite has_completed_refreshed; exact HT|].
    reflexivity.
  - intros t ds fuel Ha Hn Hlt Hge Hf. rewrite job_job_wait_eq, Hd.
    replace fuel with (length ds + S (fuel - length ds - 1)) by lia.
    rewrite job_job_wait_loop_polls; auto.
    apply job_job_wait_loop_times_out; auto.
    apply polled_not_completed; auto.
Qed.

Lemma wait_until_completed_times_out_witness :
  aio_job_job.wait_until_completed
    (sample.service 5 (sample.succeeded sample.uri_signed)) 1 30%float
    (Some 0%float) true (sample.fresh sample.waiting)
  = (Raise (TimeoutError (Some 0%float)),
     refreshed sample.waiting (sample.fresh sample.waiting))
  /\
  aio_job_job.wait_until_completed
    (sample.service 5 (sample.succeeded sample.uri_signed)) 3 30%float
    (Some 0.4%float) true (sample.fresh sample.waiting)
  = (Raise (TimeoutError (Some 0.4%float)),
     polled true [sample.waiting; sample.waiting]
       (refreshed sample.waiting (sample.fresh sample.waiting))).
Proof.
  destruct (wait_until_completed_times_out
              (sample.service 5 (sample.succeeded sample.uri_signed))
              30%float true (sample.fresh sample.waiting) sample.waiting
              eq_refl eq_refl) as [H0 H1].
  split.
  - apply H0.
  - apply H1.
    + simpl. repeat split.
    + reflexivity.
    + intros j Hj. destruct j as [|[|j]]; [reflexivity|reflexivity|simpl in Hj; lia].
    + reflexivity.
    + simpl. lia.
Defined.

(** C3.  The loop of job/job.py never suspends: whatever the service
    answers, a run of [wait_until_completed] adds no sleep to the trace
    (line 89 builds the [asyncio.sleep] coroutine and drops it).  On a job
    found Waiting twice and then Succeeded the refreshes follow each
    other directly, where job.py, which awaits the sleep, sleeps between
    them. *)
Theorem wait_until_completed_never_sleeps :
  (forall svc fuel m t pp st,
     sleeps (trace (snd (aio_job_job.wait_until_completed svc fuel m t pp st)))
     = sleeps (trace st))
  /\ trace (snd (aio_job_job.wait_until_completed
                   (sample.service 2 (sample.succeeded sample.uri_signed))
                   5 30%float None true (sample.fresh sample.waiting)))
     = [EvJobsGet "job-1"; EvPrint "."; EvJobsGet "job-1";
        EvPrint "."; EvJobsGet "job-1"]
  /\ trace (snd (aio_job.wait_until_completed
                   (sample.service 2 (sample.succeeded sample.uri_signed))
                   5 30%float (sample.fresh sample.waiting)))
     = [EvJobsGet "job-1"; EvPrint "."; EvSleep 0.2%float; EvJobsGet "job-1";
        EvPrint "."; EvSleep (0.2 * 1.5)%float; EvJobsGet "job-1"].
Proof.
  split; [|split].
  - intros. apply job_job_wait_sleeps.
  - reflexivity.
  - reflexivity.
Qed.

(** C2.  The intervals of the loop, with the ceiling 30: the code tests
    the ceiling before it multiplies, so the fourteenth interval is about
    38.9, above the ceiling, and the fifteenth is 30, smaller than the
    one before; the spec's [min] formula gives 30 where the code gives
    38.9.  job.py sleeps exactly these intervals. *)
Theorem poll_wait_overshoots_ceiling :
  let pws := poll_intervals 30%float 16 in
  sleeps (trace (snd (aio_job.wait_until_completed
                        (sample.service 16 (sample.succeeded sample.uri_signed))
                        20 30%float (sample.fresh sample.waiting))))
  = pws
  /\ PrimFloat.ltb 30%float (nth 13 pws 0%float) = true
  /\ nth 14 pws 0%float = 30%float
  /\ PrimFloat.ltb (nth 14 pws 0%float) (nth 13 pws 0%float) = true
  /\ next_poll_wait 30%float (nth 12 pws 0%float) = nth 13 pws 0%float
  /\ spec_next_poll_wait 30%float (nth 12 pws 0%float) = 30%float
  /\ total_time_after 30%float 0.2%float 0%float 14
     = fold_left PrimFloat.add (firstn 14 pws) 0%float.
Proof.
  cbv zeta. repeat split; vm_compute; reflexivity.
Qed.

(** ** The test for a SAS token *)

Lemma prefix_append (sub s : string) :
  String.prefix sub s = true <-> exists post, s = String.append sub post.
Proof.
  revert s; induction sub as [|a sub IH]; intros s.
  - split; [intros _; exists s; reflexivity|intros _; destruct s; reflexivity].
  - destruct s as [|b s]; simpl.
    + split; [discriminate|intros [post H]; discriminate].
    + destruct (Ascii.ascii_dec a b) as [->|Hab].
      * rewrite IH. split; intros [post H]; exists post; congruence.
      * split; [discriminate|intros [post H]; congruence].
Qed.

Lemma find_from_range sub s : forall i,
  (0 <= i)%Z -> find_from sub s i = (-1)%Z \/ (i <= find_from sub s i)%Z.
Proof.
  induction s as [|a s IH]; intros i Hi; cbn [find_from].
  - destruct (String.prefix sub ""); [right; lia|left; reflexivity].
  - destruct (String.prefix sub (String a s)); [right; lia|].
    destruct (IH (i + 1)%Z) as [H|H]; [lia|left; exact H|right; lia].
Qed.

(** [find] answers -1 exactly when the needle occurs nowhere. *)
Lemma find_from_none sub s : forall i,
  (0 <= i)%Z ->
  find_from sub s i = (-1)%Z <->
  (forall pre post, s <> String.append pre (String.append sub post)).
Proof.
  induction s as [|a s IH]; intros i Hi; cbn [find_from].
  - destruct (String.prefix sub "") eqn:Hp.
    + split; [lia|]. intros H. apply prefix_append in Hp as [post Hp].
      exfalso. apply (H "" post). exact Hp.
    + split; [|reflexivity]. intros _ pre post H.
      destruct pre; simpl in H; [|discriminate].
      assert (String.prefix sub "" = true) by (apply prefix_append; eauto).
      congruence.
  - destruct (String.prefix sub (String a s)) eqn:Hp.
    + split; [lia|]. intros H. apply prefix_append in Hp as [post Hp].
      exfalso. apply (H "" post). exact Hp.
    + rewrite IH by lia. split.
      * intros H pre post E. destruct pre as [|b pre]; simpl in E.
        -- assert (String.prefix sub (String a s) = true)
             by (apply prefix_append; eauto).
           congruence.
        -- injection E as _ E. apply (H pre post E).
      * intros H pre post E. apply (H (String a pre) post). simpl. congruence.
Qed.

(** The branch of job.py line 88 is taken exactly when ["se="] occurs
    nowhere in the query of the URI. *)
Lemma lacks_sas_token_spec uri :
  lacks_sas_token uri = true <->
  (forall pre post,
     urlparse_query uri <> String.append pre (String.append "se=" post)).
Proof.
  unfold lacks_sas_token, str_find. rewrite Z.eqb_eq.
  apply find_from_none. lia.
Qed.

Section Download.

Variable svc : Service.

(** [get_results] of job.py on a succeeded job whose URI carries ["se="]
    in its query: the URI itself is downloaded, and what [_download_blob]
    returns is handed to the decoding. *)
Lemma job_get_results_presigned fuel st uri :
  memo st = None ->
  status (details (self st)) = "Succeeded" ->
  output_data_uri (details (self st)) = Some uri ->
  lacks_sas_token uri = false ->
  aio_job.get_results svc fuel st =
  (payload <- _download_blob svc (PyStr uri) ;; loads_utf8 svc payload) st.
Proof.
  intros Hm Hs Hu Hl. unfold memo in Hm.
  assert (Hc : has_completed (self st) = true)
    by (unfold has_completed; rewrite Hs; reflexivity).
  assert (He : negb (String.eqb (status (details (self st))) "Succeeded") = false)
    by (rewrite Hs; reflexivity).
  unfold aio_job.get_results. unfold bind at 1. unfold get_self at 1.
  rewrite Hm, Hc. cbn [negb].
  unfold bind at 1. unfold ret at 1.
  unfold bind at 1. unfold get_self at 1.
  rewrite He, Hu, Hl. unfold await.
  unfold bind. destruct (_download_blob svc (PyStr uri) st) as [[p|e|] st1]; auto.
  destruct (loads_utf8 svc p st1) as [[j|e|] st2]; reflexivity.
Qed.

End Download.

(** C5.  A job the program holds whose terminal status is not Succeeded:
    [get_results] raises the error that carries this status and the
    server's error data, and the state is the one the polling left, so no
    blob is downloaded and no SAS URI asked for.  This holds when the
    cached status is terminal already (the state does not change at all)
    and when the job turns out terminal after waiting (with fuel for the
    polls and, for job/job.py, a budget that lasts); for job/job.py and
    for job.py. *)
Theorem get_results_fails_for_unsuccessful_job (svc : Service) (st : state) :
  (job_job_py.reachable svc st ->
     (has_completed (self st) = true ->
      status (details (self st)) <> "Succeeded" ->
      forall fuel t,
        aio_job_job.get_results svc fuel t st =
        (Raise (RuntimeError (status (details (self st)))
                             (error_data (details (self st)))), st))
     /\
     (forall pre dT fuel t,
        has_completed (self st) = false ->
        answers svc (gets st) (id (self st)) (pre ++ [dT]) ->
        forallb nonterminal pre = true ->
        terminal dT = true ->
        status dT <> "Succeeded" ->
        (forall j, j < length pre ->
           aio_job_job.timed_out t
             (total_time_after 30%float 0.2%float 0%float j) = false) ->
        length pre < fuel ->
        aio_job_job.get_results svc fuel t st =
        (Raise (RuntimeError (status dT) (error_data dT)),
         waited true (pre ++ [dT]) st)
        /\ no_blob_traffic st (waited true (pre ++ [dT]) st)))
  /\
  (job_py.reachable svc st ->
     (has_completed (self st) = true ->
      status (details (self st)) <> "Succeeded" ->
      forall fuel,
        aio_job.get_results svc fuel st =
        (Raise (RuntimeError (status (details (self st)))
                             (error_data (details (self st)))), st))
     /\
     (forall pre dT fuel,
        has_completed (self st) = false ->
        answers svc (gets st) (id (self st)) (pre ++ [dT]) ->
        forallb nonterminal pre = true ->
        terminal dT = true ->
        status dT <> "Succeeded" ->
        length pre < fuel ->
        aio_job.get_results svc fuel st =
        (Raise (RuntimeError (status dT) (error_data dT)),
         slept_waited 30%float (pre ++ [dT]) st)
        /\ no_blob_traffic st (slept_waited 30%float (pre ++ [dT]) st))).
Proof.
  split; intros Hr.
  - apply job_job_reachable_memo in Hr. split.
    + intros. apply job_job_get_results_cached_failure; assumption.
    + intros. split.
      * apply job_job_get_results_waited_failure; assumption.
      * apply poll_frame_no_blob_traffic, waited_frame.
  - apply job_reachable_memo in Hr. split.
    + intros. apply job_get_results_cached_failure; assumption.
    + intros. split.
      * apply job_get_results_waited_failure; assumption.
      * apply poll_frame_no_blob_traffic, slept_waited_frame.
Qed.

Lemma get_results_fails_for_unsuccessful_job_witness :
  aio_job_job.get_results (sample.service 0 sample.failed) 0 (Some 300%float)
    (sample.fresh sample.failed)
  = (Raise (RuntimeError "Failed" (error_data sample.failed)),
     sample.fresh sample.failed)
  /\
  aio_job.get_results (sample.service 2 sample.failed) 3
    (sample.fresh sample.waiting)
  = (Raise (RuntimeError "Failed" (error_data sample.failed)),
     slept_waited 30%float [sample.waiting; sample.waiting; sample.failed]
       (sample.fresh sample.waiting)).
Proof.
  split.
  - apply (proj1 (get_results_fails_for_unsuccessful_job
                    (sample.service 0 sample.failed) (sample.fresh sample.failed))).
    + apply job_job_py.reach_init.
    + reflexivity.
    + discriminate.
  - apply (proj1 (proj2 (proj2 (get_results_fails_for_unsuccessful_job
                    (sample.service 2 sample.failed) (sample.fresh sample.waiting))
                    (job_py.reach_init _ _ _ _ _))
             [sample.waiting; sample.waiting] sample.failed 3
             eq_refl (conj eq_refl (conj eq_refl (conj eq_refl I)))
             eq_refl eq_refl ltac:(discriminate) ltac:(simpl; lia))).
Defined.

(** C1.  Neither [get_results] ever writes the memo: after any call the
    [results] attribute is what it was before (lines 102-103 of job.py and
    122-123 of job/job.py return the decoded value without storing it).
    So a second call on a completed job downloads the blob a second
    time.  With job/job.py both calls return the decoded value.  With
    job.py both calls raise after their download: the payload is the
    coroutine of the un-awaited [readall()] of line 71, which has no
    [decode]. *)
Theorem get_results_twice_downloads_twice :
  (forall svc fuel st, memo (snd (aio_job.get_results svc fuel st)) = memo st)
  /\ (forall svc fuel t st,
        memo (snd (aio_job_job.get_results svc fuel t st)) = memo st)
  /\ (let svc := sample.service 0 (sample.succeeded sample.uri_signed) in
      let st0 := sample.fresh (sample.succeeded sample.uri_signed) in
      let run1 := aio_job.get_results svc 1 st0 in
      let run2 := aio_job.get_results svc 1 (snd run1) in
      fst run1 = Raise AttributeError /\ fst run2 = Raise AttributeError
      /\ memo (snd run1) = None
      /\ length (downloads (trace (snd run1))) = 1
      /\ length (downloads (trace (snd run2))) = 2)
  /\ (let svc := sample.service 0 (sample.succeeded sample.uri_signed) in
      let st0 := sample.fresh (sample.succeeded sample.uri_signed) in
      let run1 := aio_job_job.get_results svc 1 (Some 300%float) st0 in
      let run2 := aio_job_job.get_results svc 1 (Some 300%float) (snd run1) in
      fst run1 = Ok (JObject []) /\ fst run2 = Ok (JObject [])
      /\ memo (snd run1) = None
      /\ length (downloads (trace (snd run1))) = 1
      /\ length (downloads (trace (snd run2))) = 2).
Proof.
  split; [|split; [|split]].
  - intros. apply job_get_results_keeps_memo.
  - intros. apply job_job_get_results_keeps_memo.
  - cbv zeta. repeat split.
  - cbv zeta. repeat split.
Qed.

(** C6.  [get_results] of job.py never asks the Workspace's storage API
    for a SAS URI: the only call of [_get_linked_storage_sas_uri] (line 94)
    is not awaited, so the coroutine never runs and is itself handed to
    [_download_blob] as the blob URL.  On a succeeded job whose URI has no
    query the storage SDK refuses that object; nothing is fetched. *)
Theorem get_results_never_resolves_sas :
  (forall svc fuel st,
     sas_calls (trace (snd (aio_job.get_results svc fuel st)))
     = sas_calls (trace st))
  /\ aio_job.get_results (sample.service 0 (sample.succeeded sample.uri_bare)) 1
       (sample.fresh (sample.succeeded sample.uri_bare))
     = (Raise (ValueError "Blob URL must be a string."),
        sample.fresh (sample.succeeded sample.uri_bare)).
Proof.
  split.
  - intros. apply job_get_results_keeps_sas.
  - reflexivity.
Qed.

(** C10.  The test reads the query only and is a substring search: with
    [?rose=1] the URI is downloaded as it is, with no SAS call (the call
    then raises, the payload being the coroutine of the un-awaited
    [readall()]); with [se=] in the path only, the other branch is taken,
    and there the SAS resolution is built but never awaited, so no SAS
    call happens and nothing is downloaded. *)
Theorem sas_token_test_reads_query_only :
  lacks_sas_token sample.uri_rose = false
  /\ aio_job.get_results (sample.service 0 (sample.succeeded sample.uri_rose)) 1
       (sample.fresh (sample.succeeded sample.uri_rose))
     = (Raise AttributeError,
        {| self := Job_init sample.ws (sample.succeeded sample.uri_rose);
           gets := 0;
           trace := [EvDownloadBlob {| url := sample.uri_rose;
                                       account_name := "acct";
                                       container_name := "job-1";
                                       blob_name := "rawOutputData" |}] |})
  /\ lacks_sas_token sample.uri_se_in_path = true
  /\ aio_job.get_results
       (sample.service 0 (sample.succeeded sample.uri_se_in_path)) 1
       (sample.fresh (sample.succeeded sample.uri_se_in_path))
     = (Raise (ValueError "Blob URL must be a string."),
        sample.fresh (sample.succeeded sample.uri_se_in_path)).
Proof.
  repeat split.
Qed.

(** ** Further properties of the job client *)

(** X1.  [wait_until_completed] of job/job.py returns normally, with
    [has_completed] true afterwards, whenever the refreshes find the job
    not terminal some number of times and then terminal, the budget (if
    any) is not used up before, and the fuel covers the polls. *)
Theorem wait_until_completed_returns_when_terminal (svc : Service)
    (pre : list JobDetails) (dT : JobDetails) (fuel : nat) (m : float)
    (t : option float) (pp : bool) (st : state) :
  answers svc (gets st) (id (self st)) (pre ++ [dT]) ->
  forallb nonterminal pre = true ->
  terminal dT = true ->
  (forall j, j < length pre ->
     aio_job_job.timed_out t (total_time_after m 0.2%float 0%float j) = false) ->
  length pre < fuel ->
  fst (aio_job_job.wait_until_completed svc fuel m t pp st) = Ok tt
  /\ has_completed
       (self (snd (aio_job_job.wait_until_completed svc fuel m t pp st))) = true
  /\ details (self (snd (aio_job_job.wait_until_completed svc fuel m t pp st)))
     = dT.
Proof.
  intros Ha Hn HT Ht Hf.
  rewrite (job_job_wait_completes svc pre dT) by assumption. simpl.
  unfold has_completed. rewrite waited_details. repeat split. exact HT.
Qed.

Lemma wait_until_completed_returns_when_terminal_witness :
  fst (aio_job_job.wait_until_completed
         (sample.service 3 (sample.succeeded sample.uri_signed)) 4 30%float
         (Some 300%float) true (sample.fresh sample.waiting)) = Ok tt
  /\ has_completed
       (self (snd (aio_job_job.wait_until_completed
                     (sample.service 3 (sample.succeeded sample.uri_signed)) 4
                     30%float (Some 300%float) true
                     (sample.fresh sample.waiting)))) = true
  /\ details
       (self (snd (aio_job_job.wait_until_completed
                     (sample.service 3 (sample.succeeded sample.uri_signed)) 4
                     30%float (Some 300%float) true
                     (sample.fresh sample.waiting))))
     = sample.succeeded sample.uri_signed.
Proof.
  apply (wait_until_completed_returns_when_terminal
           (sample.service 3 (sample.succeeded sample.uri_signed))
           [sample.waiting; sample.waiting; sample.waiting]
           (sample.succeeded sample.uri_signed)).
  - simpl. repeat split.
  - reflexivity.
  - reflexivity.
  - intros j Hj.
    destruct j as [|[|[|j]]]; [reflexivity|reflexivity|reflexivity|simpl in Hj; lia].
  - simpl. lia.
Defined.

(** X2.  [get_results] of job.py on a succeeded job with an empty memo
    whose URI holds ["se="] somewhere in its query: the blob client built
    from that very URI is downloaded, once, and nothing else happens; in
    particular no SAS URI is asked for. *)
Theorem presigned_uri_is_downloaded_as_is (svc : Service) (fuel : nat)
    (st : state) (uri pre post : string) (bc : BlobClient) :
  memo st = None ->
  status (details (self st)) = "Succeeded" ->
  output_data_uri (details (self st)) = Some uri ->
  urlparse_query uri = String.append pre (String.append "se=" post) ->
  from_blob_url svc (PyStr uri) = Reply bc ->
  trace (snd (aio_job.get_results svc fuel st)) = trace st ++ [EvDownloadBlob bc].
Proof.
  intros Hm Hs Hu Hq Hb.
  assert (Hl : lacks_sas_token uri = false).
  { destruct (lacks_sas_token uri) eqn:E; [|reflexivity].
    destruct (proj1 (lacks_sas_token_spec uri) E pre post Hq). }
  rewrite (job_get_results_presigned svc fuel st uri) by assumption.
  unfold _download_blob, loads_utf8, bind, of_reply, emit, ret, raise.
  unfold await. rewrite Hb. simpl.
  destruct (download_blob svc bc) as [p|e]; reflexivity.
Qed.

Lemma presigned_uri_is_downloaded_as_is_witness :
  trace (snd (aio_job.get_results
                (sample.service 0 (sample.succeeded sample.uri_rose)) 1
                (sample.fresh (sample.succeeded sample.uri_rose))))
  = [] ++ [EvDownloadBlob {| url := sample.uri_rose;
                             account_name := "acct";
                             container_name := "job-1";
                             blob_name := "rawOutputData" |}].
Proof.
  apply (presigned_uri_is_downloaded_as_is
           (sample.service 0 (sample.succeeded sample.uri_rose)) 1
           (sample.fresh (sample.succeeded sample.uri_rose))
           sample.uri_rose "ro" "1");
    reflexivity.
Defined.

(** ** The matcher and the pattern *)

Section Pattern.

Import aio_workspace resource_id_pattern.

Lemma append_assoc (a b c : string) :
  ((a ++ b) ++ c)%string = (a ++ (b ++ c))%string.
Proof. induction a as [|x a IH]; simpl; congruence. Qed.

Lemma strip_prefix_ci_sound lit : forall s r,
  strip_prefix_ci lit s = Some r ->
  exists l, s = (l ++ r)%string /\ ci_equal l lit.
Proof.
  induction lit as [|x lit IH]; intros s r H; simpl in H.
  - injection H as <-. exists EmptyString. split; reflexivity.
  - destruct s as [|c s]; [discriminate|].
    destruct (Ascii.eqb (ascii_lower c) (ascii_lower x)) eqn:E; [|discriminate].
    apply Ascii.eqb_eq in E. destruct (IH _ _ H) as (l & -> & Hl).
    exists (String c l). split; [reflexivity|].
    unfold ci_equal in *. simpl. congruence.
Qed.

Lemma strip_prefix_ci_complete lit : forall l r,
  ci_equal l lit -> strip_prefix_ci lit (l ++ r)%string = Some r.
Proof.
  induction lit as [|x lit IH]; intros l r H; unfold ci_equal in H.
  - destruct l; [reflexivity|discriminate].
  - destruct l as [|c l]; [discriminate|]. simpl in H. injection H as Hc Hl.
    simpl. rewrite Hc, Ascii.eqb_refl. apply IH. exact Hl.
Qed.

Lemma span_sound p s : forall a b,
  span p s = (a, b) -> s = (a ++ b)%string /\ all_chars p a = true.
Proof.
  induction s as [|c s IH]; intros a b H; simpl in H.
  - injection H as <- <-. split; reflexivity.
  - destruct (p c) eqn:E.
    + destruct (span p s) as [a' b'] eqn:Es. injection H as <- <-.
      destruct (IH _ _ eq_refl) as [-> Ha]. split; [reflexivity|].
      simpl. rewrite E. exact Ha.
    + injection H as <- <-. split; reflexivity.
Qed.

Lemma span_complete p a : forall b,
  all_chars p a = true -> stops p b -> span p (a ++ b)%string = (a, b).
Proof.
  induction a as [|c a IH]; intros b Ha Hb; simpl in *.
  - destruct b as [|c b]; [reflexivity|]. simpl. rewrite Hb. reflexivity.
  - apply andb_true_iff in Ha as [Hc Ha]. rewrite Hc, IH; auto.
Qed.

Lemma ascii_lower_slash c :
  Ascii.eqb (ascii_lower c) "/" = Ascii.eqb c "/".
Proof. destruct c as [[] [] [] [] [] [] [] []]; reflexivity. Qed.

Lemma ci_equal_slash_head l x lit :
  ci_equal l (String "/" (String x lit)) ->
  exists l', l = String "/" l'.
Proof.
  unfold ci_equal. destruct l as [|c l]; [discriminate|]. simpl.
  intros H. injection H as Hc _.
  assert (E : Ascii.eqb (ascii_lower c) "/" = true).
  { apply Ascii.eqb_eq. rewrite Hc. reflexivity. }
  rewrite ascii_lower_slash in E. apply Ascii.eqb_eq in E. subst c. eauto.
Qed.

Lemma at_dollar_spec s : at_dollar s = true <-> s = EmptyString \/ s = newline.
Proof.
  unfold at_dollar. rewrite orb_true_iff, !String.eqb_eq. tauto.
Qed.

(** The matcher of [Workspace.__init__] accepts exactly the strings of the
    pattern, and returns their three components. *)
Lemma match_resource_id_spec s g1 g2 g3 :
  match_resource_id s = Some (g1, g2, g3) <-> matches_pattern s g1 g2 g3.
Proof.
  unfold match_resource_id, matches_pattern. split.
  - destruct (strip_prefix_ci lit_subscriptions s) as [r1|] eqn:E1; [|discriminate].
    destruct (span is_hex_dash r1) as [a1 r2] eqn:S1.
    destruct (strip_prefix_ci lit_resourceGroups r2) as [r3|] eqn:E2; [|discriminate].
    destruct (span not_space_slash r3) as [a2 r4] eqn:S2.
    destruct (strip_prefix_ci lit_providers r4) as [r5|] eqn:E3; [|discriminate].
    destruct (span not_space_slash r5) as [a3 r6] eqn:S3.
    destruct (at_dollar r6) eqn:D; [|discriminate].
    intros H. injection H as <- <- <-.
    apply strip_prefix_ci_sound in E1 as (l1 & -> & H1).
    apply strip_prefix_ci_sound in E2 as (l2 & -> & H2).
    apply strip_prefix_ci_sound in E3 as (l3 & -> & H3).
    apply span_sound in S1 as [-> A1].
    apply span_sound in S2 as [-> A2].
    apply span_sound in S3 as [-> A3].
    apply at_dollar_spec in D.
    exists l1, l2, l3, r6. repeat split; auto.
  - intros (l1 & l2 & l3 & tail & -> & H1 & H2 & H3 & A1 & A2 & A3 & D).
    rewrite strip_prefix_ci_complete by exact H1.
    destruct (ci_equal_slash_head _ _ _ H2) as [l2' E2].
    destruct (ci_equal_slash_head _ _ _ H3) as [l3' E3].
    rewrite span_complete; [|exact A1|rewrite E2; reflexivity].
    rewrite strip_prefix_ci_complete by exact H2.
    rewrite span_complete; [|exact A2|rewrite E3; reflexivity].
    rewrite strip_prefix_ci_complete by exact H3.
    rewrite span_complete; [|exact A3|destruct D as [->| ->]; reflexivity].
    apply at_dollar_spec in D. rewrite D. reflexivity.
Qed.

Lemma match_resource_id_none s :
  match_resource_id s = None <-> forall g1 g2 g3, ~ matches_pattern s g1 g2 g3.
Proof.
  split.
  - intros H g1 g2 g3 M. apply match_resource_id_spec in M. congruence.
  - intros H. destruct (match_resource_id s) as [[[g1 g2] g3]|] eqn:E; [|reflexivity].
    apply match_resource_id_spec in E. destruct (H _ _ _ E).
Qed.

(** The triple computed by lines 77-92 is the resolved triple. *)
Lemma resolve_triple_resolved sub rg nm rid t :
  resolved sub rg nm rid t <-> resolve_triple sub rg nm rid = t.
Proof.
  unfold resolve_triple. split.
  - intros [s g1 g2 g3 -> M| -> |s -> M].
    + apply match_resource_id_spec in M. rewrite M. reflexivity.
    + reflexivity.
    + apply match_resource_id_none in M. rewrite M. reflexivity.
  - intros <-. destruct rid as [s|]; [|apply resolved_no_id; reflexivity].
    destruct (match_resource_id s) as [[[g1 g2] g3]|] eqn:E.
    + eapply resolved_by_id; [reflexivity|]. apply match_resource_id_spec. exact E.
    + eapply resolved_malformed_id; [reflexivity|].
      apply match_resource_id_none. exact E.
Qed.

End Pattern.

(** ** The claims about Workspace construction *)

Section Construction.

Import aio_workspace resource_id_pattern.

Variable BASE_URL : string -> string.
Variable ARM_BASE_URL : string.

Lemma falsy_Some_false s : s <> EmptyString -> falsy (Some s) = false.
Proof. intros H. simpl. apply String.eqb_neq. exact H. Qed.

Lemma falsy_false x : falsy x = false -> exists s, x = Some s /\ s <> EmptyString.
Proof.
  destruct x as [s|]; simpl; [|discriminate].
  intros H. exists s. split; [reflexivity|]. apply String.eqb_neq. exact H.
Qed.

(** The two checks of lines 94-105, on the resolved triple. *)
Lemma Workspace_init_cases sub rg nm storage rid loc cred a b c :
  resolve_triple sub rg nm rid = (a, b, c) ->
  (falsy a || falsy b || falsy c = true /\
   Workspace_init BASE_URL ARM_BASE_URL sub rg nm storage rid loc cred
   = Raise (ValueError msg_not_fully_specified))
  \/ (falsy a || falsy b || falsy c = false /\ falsy loc = true /\
      Workspace_init BASE_URL ARM_BASE_URL sub rg nm storage rid loc cred
      = Raise (ValueError msg_no_location))
  \/ (falsy a || falsy b || falsy c = false /\ falsy loc = false /\
      exists ws,
        Workspace_init BASE_URL ARM_BASE_URL sub rg nm storage rid loc cred = Ok ws
        /\ a = Some (subscription_id ws)
        /\ b = Some (resource_group ws)
        /\ c = Some (name ws)).
Proof.
  intros E. unfold Workspace_init. rewrite E.
  destruct (falsy a || falsy b || falsy c) eqn:T; [left; auto|].
  destruct (falsy loc) eqn:L; [right; left; auto|].
  right; right. repeat split. eexists. split; [reflexivity|].
  apply orb_false_iff in T as [T Hc]. apply orb_false_iff in T as [Ha Hb].
  apply falsy_false in Ha as (x & -> & _).
  apply falsy_false in Hb as (y & -> & _).
  apply falsy_false in Hc as (z & -> & _).
  simpl. repeat split.
Qed.

(** C8.  A resource ID that matches the pattern, with the components
    [g1], [g2], [g3]: constructing the Workspace from it (whatever explicit
    components come along) yields what constructing it from [g1], [g2],
    [g3] given explicitly yields, the same Workspace or the same error;
    when the three components are not empty and a location is given, that
    is a Workspace with this subscription ID, resource group and name.  A
    resource ID that does not match, with no explicit components, fails
    construction. *)
Theorem resource_id_yields_same_workspace (rid : string)
    (storage loc : option string) (cred : option Credential) :
  (forall g1 g2 g3,
     matches_pattern rid g1 g2 g3 ->
     (forall sub rg nm,
        Workspace_init BASE_URL ARM_BASE_URL sub rg nm storage (Some rid) loc cred
        = Workspace_init BASE_URL ARM_BASE_URL (Some g1) (Some g2) (Some g3)
            storage None loc cred)
     /\ (g1 <> EmptyString -> g2 <> EmptyString -> g3 <> EmptyString ->
         falsy loc = false ->
         exists ws,
           Workspace_init BASE_URL ARM_BASE_URL None None None storage
             (Some rid) loc cred = Ok ws
           /\ subscription_id ws = g1
           /\ resource_group ws = g2
           /\ name ws = g3))
  /\ ((forall g1 g2 g3, ~ matches_pattern rid g1 g2 g3) ->
      Workspace_init BASE_URL ARM_BASE_URL None None None storage (Some rid) loc cred
      = Raise (ValueError msg_not_fully_specified)).
Proof.
  split.
  - intros g1 g2 g3 M. apply match_resource_id_spec in M. split.
    + intros. unfold Workspace_init, resolve_triple. rewrite M. reflexivity.
    + intros H1 H2 H3 HL.
      destruct (Workspace_init_cases None None None storage (Some rid) loc cred
                  (Some g1) (Some g2) (Some g3)) as [[T _]|[(_ & L & _)|(_ & _ & ws & E & A & B & C)]].
      * unfold resolve_triple. rewrite M. reflexivity.
      * rewrite !falsy_Some_false in T by assumption. discriminate.
      * congruence.
      * exists ws. split; [exact E|]. repeat split; congruence.
  - intros H. apply match_resource_id_none in H.
    unfold Workspace_init, resolve_triple. rewrite H. reflexivity.
Qed.

(** C7, amended.  With the triple resolved as [Workspace.__init__]
    resolves it (the groups of a resource ID that matches the pattern,
    empty or not, in place of the explicit components; the explicit
    components when there is no resource ID or it does not match),
    construction raises the configuration error exactly when a component
    of that triple is missing or empty or the location is missing or
    empty; when the triple is complete and a location is given it raises
    no such error and returns a Workspace with that triple as its
    identity. *)
Theorem config_error_iff_resolved_triple_incomplete
    (sub rg nm storage rid loc : option string) (cred : option Credential)
    (t : option string * option string * option string) :
  resolved sub rg nm rid t ->
  (is_config_error
     (Workspace_init BASE_URL ARM_BASE_URL sub rg nm storage rid loc cred)
   <-> incomplete t \/ falsy loc = true)
  /\ (~ incomplete t -> falsy loc = false ->
      exists ws,
        Workspace_init BASE_URL ARM_BASE_URL sub rg nm storage rid loc cred = Ok ws
        /\ t = (Some (subscription_id ws), Some (resource_group ws), Some (name ws))).
Proof.
  intros R. apply resolve_triple_resolved in R. destruct t as [[a b] c].
  unfold incomplete, is_config_error.
  destruct (Workspace_init_cases sub rg nm storage rid loc cred a b c R)
    as [[T E]|[(T & L & E)|(T & L & ws & E & -> & -> & ->)]]; rewrite E.
  - apply orb_true_iff in T as [T|T]; [apply orb_true_iff in T as [T|T]|];
      (split; [split; [intros _; tauto|intros _; eauto]|intros N; exfalso; tauto]).
  - split; [split; [intros _; tauto|intros _; eauto]|intros _ N; congruence].
  - apply orb_false_iff in T as [T Hc]. apply orb_false_iff in T as [Ha Hb].
    split; [split|].
    + intros [msg H]. discriminate.
    + intros [[H|[H|H]]|H]; congruence.
    + intros _ _. exists ws. split; reflexivity.
Qed.

End Construction.

Lemma resource_id_yields_same_workspace_witness :
  (exists ws,
     aio_workspace.Workspace_init sample_workspace.BASE_URL
       sample_workspace.ARM_BASE_URL None None None None
       (Some sample_workspace.resource_id) (Some "West US") None = Ok ws
     /\ subscription_id ws = "f846b2bd-d0e2-4a1d-8141-4c6944a9d387"
     /\ resource_group ws = "rg"
     /\ name ws = "ws")
  /\ aio_workspace.Workspace_init sample_workspace.BASE_URL
       sample_workspace.ARM_BASE_URL None None None None
       (Some sample_workspace.malformed_resource_id) (Some "West US") None
     = Raise (ValueError aio_workspace.msg_not_fully_specified).
Proof.
  split.
  - apply (proj1 (resource_id_yields_same_workspace sample_workspace.BASE_URL
                    sample_workspace.ARM_BASE_URL sample_workspace.resource_id
                    None (Some "West US") None)
             "f846b2bd-d0e2-4a1d-8141-4c6944a9d387" "rg" "ws").
    + apply match_resource_id_spec. reflexivity.
    + discriminate.
    + discriminate.
    + discriminate.
    + reflexivity.
  - apply (proj2 (resource_id_yields_same_workspace sample_workspace.BASE_URL
                    sample_workspace.ARM_BASE_URL
                    sample_workspace.malformed_resource_id
                    None (Some "West US") None)).
    apply match_resource_id_none. reflexivity.
Defined.

Lemma config_error_iff_resolved_triple_incomplete_witness :
  resource_id_pattern.is_config_error
    (aio_workspace.Workspace_init sample_workspace.BASE_URL
       sample_workspace.ARM_BASE_URL (Some "f846b2bd") (Some "rg") None None
       None (Some "westus") None)
  /\ exists ws,
       aio_workspace.Workspace_init sample_workspace.BASE_URL
         sample_workspace.ARM_BASE_URL (Some "f846b2bd") (Some "rg") (Some "ws")
         None None (Some "westus") None = Ok ws
       /\ (Some "f846b2bd", Some "rg", Some "ws")
          = (Some (subscription_id ws), Some (resource_group ws), Some (name ws)).
Proof.
  split.
  - apply (proj1 (config_error_iff_resolved_triple_incomplete
                    sample_workspace.BASE_URL sample_workspace.ARM_BASE_URL
                    (Some "f846b2bd") (Some "rg") None None None (Some "westus")
                    None (Some "f846b2bd", Some "rg", None)
                    (resource_id_pattern.resolved_no_id _ _ _ _ eq_refl))).
    left. right. right. reflexivity.
  - apply (proj2 (config_error_iff_resolved_triple_incomplete
                    sample_workspace.BASE_URL sample_workspace.ARM_BASE_URL
                    (Some "f846b2bd") (Some "rg") (Some "ws") None None
                    (Some "westus") None (Some "f846b2bd", Some "rg", Some "ws")
                    (resource_id_pattern.resolved_no_id _ _ _ _ eq_refl))).
    + intros [H|[H|H]]; discriminate.
    + reflexivity.
Defined.

(** A matching resource ID takes precedence over explicit components
    even when one of its groups is empty: the resolved triple is then
    incomplete and construction fails, whatever the explicit components. *)
Lemma matching_id_overrides_explicit_triple :
  resource_id_pattern.resolved (Some "f846b2bd") (Some "rg") (Some "ws")
    (Some sample_workspace.resource_id_no_subscription)
    (Some "", Some "rg", Some "ws")
  /\ resource_id_pattern.is_config_error
       (aio_workspace.Workspace_init sample_workspace.BASE_URL
          sample_workspace.ARM_BASE_URL (Some "f846b2bd") (Some "rg") (Some "ws")
          None (Some sample_workspace.resource_id_no_subscription)
          (Some "westus") None).
Proof.
  split.
  - eapply resource_id_pattern.resolved_by_id; [reflexivity|].
    apply match_resource_id_spec. reflexivity.
  - eexists. reflexivity.
Qed.

(** C7, as worded, fails.  The explicit components supply all three and
    a location is given, so that by the claim's reading the triple is not
    incomplete; the resource ID matches the pattern with an empty
    subscription group, replaces the explicit components, and
    construction raises the configuration error. *)
Lemma config_error_despite_explicit_triple :
  resource_id_pattern.is_config_error
    (aio_workspace.Workspace_init sample_workspace.BASE_URL
       sample_workspace.ARM_BASE_URL (Some "f846b2bd") (Some "rg") (Some "ws")
       None (Some sample_workspace.resource_id_no_subscription)
       (Some "westus") None)
  /\ resource_id_pattern.explicit_supply_all_three
       (Some "f846b2bd") (Some "rg") (Some "ws")
  /\ ~ (resource_id_pattern.neither_supplies_all_three
         (Some "f846b2bd") (Some "rg") (Some "ws")
         (Some sample_workspace.resource_id_no_subscription)
       \/ aio_workspace.falsy (Some "westus") = true).
Proof.
  assert (E : resource_id_pattern.explicit_supply_all_three
                (Some "f846b2bd") (Some "rg") (Some "ws"))
    by (repeat split).
  split; [eexists; reflexivity|]. split; [exact E|].
  intros [[_ H]|H]; [exact (H E)|discriminate H].
Qed.

(** ** More on polling *)


Section MorePolling.

Variable svc : Service.

Lemma job_job_wait_loop_ok fuel : forall m t pp pw total st,
  fst (aio_job_job.wait_loop svc fuel m t pp pw total st) = Ok tt ->
  has_completed (self (snd (aio_job_job.wait_loop svc fuel m t pp pw total st)))
  = true.
Proof.
  induction fuel as [|fuel IH]; intros m t pp pw total st; [discriminate|].
  rewrite job_job_wait_loop_S.
  destruct (has_completed (self st)) eqn:Hc; [intros _; exact Hc|].
  destruct (aio_job_job.timed_out t total); [discriminate|].
  destruct (jobs_get svc (gets st) (id (self st))); [apply IH|discriminate].
Qed.

Lemma job_wait_loop_ok fuel : forall m pw st,
  fst (aio_job.wait_loop svc fuel m pw st) = Ok tt ->
  has_completed (self (snd (aio_job.wait_loop svc fuel m pw st))) = true.
Proof.
  induction fuel as [|fuel IH]; intros m pw st; [discriminate|].
  rewrite job_wait_loop_S.
  destruct (has_completed (self st)) eqn:Hc; [intros _; exact Hc|].
  destruct (jobs_get svc (gets st) (id (self st))); [apply IH|discriminate].
Qed.



Lemma job_wait_loop_ok_wait fuel m st :
  fst (aio_job.wait_until_completed svc fuel m st) = Ok tt ->
  has_completed (self (snd (aio_job.wait_until_completed svc fuel m st))) = true.
Proof.
  rewrite job_wait_eq.
  destruct (jobs_get svc (gets st) (id (self st))); [|discriminate].
  apply job_wait_loop_ok.
Qed.

Lemma job_job_wait_loop_ok_wait fuel m t pp st :
  fst (aio_job_job.wait_until_completed svc fuel m t pp st) = Ok tt ->
  has_completed
    (self (snd (aio_job_job.wait_until_completed svc fuel m t pp st))) = true.
Proof.
  rewrite job_job_wait_eq.
  destruct (jobs_get svc (gets st) (id (self st))); [|discriminate].
  apply job_job_wait_loop_ok.
Qed.

End MorePolling.

Lemma polling_event_printed job_id (pp : bool) :
  forallb (polling_event job_id) (if pp then [EvPrint "."] else []) = true.
Proof. destruct pp; reflexivity. Qed.

Section PollingTrace.

Variable svc : Service.

(** What the loop of job/job.py adds to the trace. *)
Lemma job_job_wait_loop_trace fuel : forall m t pp pw total st,
  exists evs,
    trace (snd (aio_job_job.wait_loop svc fuel m t pp pw total st))
    = trace st ++ evs
    /\ forallb (polling_event (id (self st))) evs = true.
Proof.
  induction fuel as [|fuel IH]; intros m t pp pw total st.
  - exists []. split; [symmetry; apply app_nil_r|reflexivity].
  - rewrite job_job_wait_loop_S.
    destruct (has_completed (self st)).
    { exists []. split; [symmetry; apply app_nil_r|reflexivity]. }
    destruct (aio_job_job.timed_out t total).
    { exists []. split; [symmetry; apply app_nil_r|reflexivity]. }
    destruct (jobs_get svc (gets st) (id (self st))) as [d|e].
    + destruct (IH m t pp (next_poll_wait m pw) (PrimFloat.add total pw)
                  (refreshed d (printed pp st))) as (evs & E & F).
      exists ((if pp then [EvPrint "."] else []) ++ [EvJobsGet (id (self st))] ++ evs).
      split.
      * rewrite E. cbn [refreshed printed trace self id]. rewrite <- !app_assoc.
        reflexivity.
      * rewrite !forallb_app, polling_event_printed. cbn [forallb polling_event].
        rewrite String.eqb_refl. exact F.
    + exists ((if pp then [EvPrint "."] else []) ++ [EvJobsGet (id (self st))]).
      split.
      * cbn [snd refused printed trace self id]. rewrite <- !app_assoc. reflexivity.
      * rewrite !forallb_app, polling_event_printed. cbn [forallb polling_event].
        rewrite String.eqb_refl. reflexivity.
Qed.

(** What the loop of job.py adds to the trace. *)
Lemma job_wait_loop_trace fuel : forall m pw st,
  exists evs,
    trace (snd (aio_job.wait_loop svc fuel m pw st)) = trace st ++ evs
    /\ forallb (polling_event (id (self st))) evs = true.
Proof.
  induction fuel as [|fuel IH]; intros m pw st.
  - exists []. split; [symmetry; apply app_nil_r|reflexivity].
  - rewrite job_wait_loop_S.
    destruct (has_completed (self st)).
    { exists []. split; [symmetry; apply app_nil_r|reflexivity]. }
    destruct (jobs_get svc (gets st) (id (self st))) as [d|e].
    + destruct (IH m (next_poll_wait m pw) (refreshed d (slept pw st)))
        as (evs & E & F).
      exists ([EvPrint "."; EvSleep pw; EvJobsGet (id (self st))] ++ evs).
      split.
      * rewrite E. cbn [refreshed slept trace self id]. rewrite <- !app_assoc.
        reflexivity.
      * cbn [forallb polling_event app]. rewrite String.eqb_refl. exact F.
    + exists [EvPrint "."; EvSleep pw; EvJobsGet (id (self st))].
      split.
      * cbn [snd refused slept trace self id]. rewrite <- !app_assoc. reflexivity.
      * cbn [forallb polling_event]. rewrite String.eqb_refl. reflexivity.
Qed.

End PollingTrace.

(** ** Properties of the polling loops *)



(** X4.  Either [wait_until_completed] returns normally only with the job
    terminal: whatever the service answers and whatever the fuel, a normal
    return leaves [has_completed] true. *)
Theorem wait_until_completed_returns_only_when_terminal (svc : Service)
    (fuel : nat) (m : float) (t : option float) (pp : bool) (st : state) :
  (fst (aio_job_job.wait_until_completed svc fuel m t pp st) = Ok tt ->
   has_completed
     (self (snd (aio_job_job.wait_until_completed svc fuel m t pp st))) = true)
  /\ (fst (aio_job.wait_until_completed svc fuel m st) = Ok tt ->
      has_completed (self (snd (aio_job.wait_until_completed svc fuel m st)))
      = true).
Proof.
  split.
  - apply job_job_wait_loop_ok_wait.
  - apply job_wait_loop_ok_wait.
Qed.

Lemma wait_until_completed_returns_only_when_terminal_witness :
  has_completed
    (self (snd (aio_job_job.wait_until_completed
                  (sample.service 2 sample.failed) 5 30%float None false
                  (sample.fresh sample.waiting)))) = true
  /\ has_completed
       (self (snd (aio_job.wait_until_completed
                     (sample.service 2 sample.failed) 5 30%float
                     (sample.fresh sample.waiting)))) = true.
Proof.
  split.
  - apply (proj1 (wait_until_completed_returns_only_when_terminal
                    (sample.service 2 sample.failed) 5 30%float None false
                    (sample.fresh sample.waiting))).
    reflexivity.
  - apply (proj2 (wait_until_completed_returns_only_when_terminal
                    (sample.service 2 sample.failed) 5 30%float None false
                    (sample.fresh sample.waiting))).
    reflexivity.
Defined.



(** X6.  What [wait_until_completed] does to the world, for either class
    and whatever the service answers: it starts with a [jobs.get] for this
    job, even when the cached status is terminal already, and everything
    it adds to the trace is a [jobs.get] for this job, a print or a sleep;
    it creates no job, downloads no blob and asks for no SAS URI. *)
Theorem wait_until_completed_only_polls (svc : Service) (fuel : nat)
    (m : float) (t : option float) (pp : bool) (st : state) :
  (exists evs,
     trace (snd (aio_job_job.wait_until_completed svc fuel m t pp st))
     = trace st ++ EvJobsGet (id (self st)) :: evs
     /\ forallb (polling_event (id (self st))) evs = true)
  /\ (exists evs,
       trace (snd (aio_job.wait_until_completed svc fuel m st))
       = trace st ++ EvJobsGet (id (self st)) :: evs
       /\ forallb (polling_event (id (self st))) evs = true).
Proof.
  split.
  - rewrite job_job_wait_eq.
    destruct (jobs_get svc (gets st) (id (self st))) as [d|e].
    + destruct (job_job_wait_loop_trace svc fuel m t pp 0.2%float 0%float
                  (refreshed d st)) as (evs & E & F).
      exists evs. split; [|exact F].
      rewrite E. cbn [refreshed trace]. rewrite <- app_assoc. reflexivity.
    + exists []. split; reflexivity.
  - rewrite job_wait_eq.
    destruct (jobs_get svc (gets st) (id (self st))) as [d|e].
    + destruct (job_wait_loop_trace svc fuel m 0.2%float (refreshed d st))
        as (evs & E & F).
      exists evs. split; [|exact F].
      rewrite E. cbn [refreshed trace]. rewrite <- app_assoc. reflexivity.
    + exists []. split; reflexivity.
Qed.

(** ** More on [get_results] *)

Section MoreResults.

Variable svc : Service.

(** A wait of job/job.py whose budget runs out while the job is not
    terminal. *)
Lemma job_job_wait_runs_out d0 ds fuel m t pp st :
  jobs_get svc (gets st) (id (self st)) = Reply d0 ->
  terminal d0 = false ->
  answers svc (S (gets st)) (id (self st)) ds ->
  forallb nonterminal ds = true ->
  (forall j, j < length ds ->
     PrimFloat.leb t (total_time_after m 0.2%float 0%float j) = false) ->
  PrimFloat.leb t (total_time_after m 0.2%float 0%float (length ds)) = true ->
  length ds < fuel ->
  aio_job_job.wait_until_completed svc fuel m (Some t) pp st =
  (Raise (TimeoutError (Some t)), polled pp ds (refreshed d0 st)).
Proof.
  intros Hd HT Ha Hn Hlt Hge Hf. rewrite job_job_wait_eq, Hd.
  replace fuel with (length ds + S (fuel - length ds - 1)) by lia.
  rewrite job_job_wait_loop_polls; auto.
  apply job_job_wait_loop_times_out; auto.
  apply polled_not_completed; auto.
Qed.

(** On a job that is not completed, [get_results] of job.py goes on,
    after the wait, as it does on the job the wait left. *)
Lemma job_get_results_after_wait fuel st st1 :
  memo st = None ->
  has_completed (self st) = false ->
  aio_job.wait_until_completed svc fuel 30%float st = (Ok tt, st1) ->
  aio_job.get_results svc fuel st = aio_job.get_results svc fuel st1.
Proof.
  intros Hm Hc Hw.
  assert (Hm1 : memo st1 = None).
  { rewrite <- Hm. change st1 with (snd (Ok tt, st1)). rewrite <- Hw.
    apply poll_frame_memo, job_wait_frame. }
  assert (Hc1 : has_completed (self st1) = true).
  { change st1 with (snd (Ok tt, st1)). rewrite <- Hw.
    apply job_wait_loop_ok_wait. rewrite Hw. reflexivity. }
  unfold memo in *.
  unfold aio_job.get_results. unfold bind at 1. unfold get_self at 1.
  rewrite Hm, Hc. cbn [negb]. unfold bind at 1. unfold await at 1. rewrite Hw.
  symmetry. unfold bind at 1. unfold get_self at 1.
  rewrite Hm1, Hc1. cbn [negb]. unfold bind at 1. unfold ret at 1. reflexivity.
Qed.

End MoreResults.

(** ** Properties of [get_results] *)

(** X7.  [get_results] of job/job.py on a job that is not completed and
    stays so until the budget is used up: the timeout error of the wait
    comes out of [get_results] unchanged, in the state the polling left;
    no blob is downloaded and no SAS URI asked for. *)
Theorem get_results_times_out_without_fetching (svc : Service) (st : state)
    (d0 : JobDetails) (ds : list JobDetails) (fuel : nat) (t : float) :
  job_job_py.reachable svc st ->
  has_completed (self st) = false ->
  jobs_get svc (gets st) (id (self st)) = Reply d0 ->
  terminal d0 = false ->
  answers svc (S (gets st)) (id (self st)) ds ->
  forallb nonterminal ds = true ->
  (forall j, j < length ds ->
     PrimFloat.leb t (total_time_after 30%float 0.2%float 0%float j) = false) ->
  PrimFloat.leb t (total_time_after 30%float 0.2%float 0%float (length ds))
  = true ->
  length ds < fuel ->
  aio_job_job.get_results svc fuel (Some t) st
  = (Raise (TimeoutError (Some t)), polled true ds (refreshed d0 st))
  /\ no_blob_traffic st (polled true ds (refreshed d0 st)).
Proof.
  intros Hr Hc Hd HT Ha Hn Hlt Hge Hf.
  apply job_job_reachable_memo in Hr. unfold memo in Hr. split.
  - unfold aio_job_job.get_results. unfold bind at 1. unfold get_self at 1.
    rewrite Hr, Hc. cbn [negb]. unfold bind at 1. unfold await at 1.
    rewrite (job_job_wait_runs_out svc d0 ds) by assumption. reflexivity.
  - apply poll_frame_no_blob_traffic.
    eapply poll_frame_trans; [apply poll_frame_refreshed|apply polled_frame].
Qed.

Lemma get_results_times_out_without_fetching_witness :
  aio_job_job.get_results
    (sample.service 5 (sample.succeeded sample.uri_signed)) 3
    (Some 0.4%float) (sample.fresh sample.waiting)
  = (Raise (TimeoutError (Some 0.4%float)),
     polled true [sample.waiting; sample.waiting]
       (refreshed sample.waiting (sample.fresh sample.waiting)))
  /\ no_blob_traffic (sample.fresh sample.waiting)
       (polled true [sample.waiting; sample.waiting]
          (refreshed sample.waiting (sample.fresh sample.waiting))).
Proof.
  apply (get_results_times_out_without_fetching
           (sample.service 5 (sample.succeeded sample.uri_signed))
           (sample.fresh sample.waiting) sample.waiting
           [sample.waiting; sample.waiting] 3 0.4%float).
  - apply job_job_py.reach_init.
  - reflexivity.
  - reflexivity.
  - reflexivity.
  - simpl. repeat split.
  - reflexivity.
  - intros j Hj. destruct j as [|[|j]]; [reflexivity|reflexivity|simpl in Hj; lia].
  - reflexivity.
  - simpl. lia.
Defined.

(** ** What [get_results] of job.py returns *)

Lemma returns_bind {A B} (P : B -> Prop) (c : M A) (k : A -> M B) :
  (forall a, returns P (k a)) -> returns P (bind c k).
Proof.
  intros Hk st x. unfold bind.
  destruct (c st) as [[a|e|] st1]; cbn [fst]; [apply Hk|discriminate|discriminate].
Qed.

Lemma returns_if {A} (P : A -> Prop) (b : bool) (c1 c2 : M A) :
  returns P c1 -> returns P c2 -> returns P (if b then c1 else c2).
Proof. destruct b; auto. Qed.

Lemma never_returns_bind {A B} (c : M A) (k : A -> M B) :
  (forall a, never_returns (k a)) -> never_returns (bind c k).
Proof.
  intros Hk st x. unfold bind.
  destruct (c st) as [[a|e|] st1]; cbn [fst]; [apply Hk|discriminate|discriminate].
Qed.

Lemma never_returns_after {A B} (P : A -> Prop) (c : M A) (k : A -> M B) :
  returns P c -> (forall a, P a -> never_returns (k a)) ->
  never_returns (bind c k).
Proof.
  intros Hc Hk st x. unfold bind. specialize (Hc st).
  destruct (c st) as [[a|e|] st1]; cbn [fst] in *;
    [apply Hk, (Hc a eq_refl)|discriminate|discriminate].
Qed.

Lemma never_returns_bind_first {A B} (c : M A) (k : A -> M B) :
  never_returns c -> never_returns (bind c k).
Proof.
  intros Hc st x. unfold bind. specialize (Hc st).
  destruct (c st) as [[a|e|] st1]; cbn [fst] in *;
    [destruct (Hc a eq_refl)|discriminate|discriminate].
Qed.

Lemma never_returns_raise {A} e : never_returns (@raise A e).
Proof. intros st x. discriminate. Qed.

Lemma never_returns_if {A} (b : bool) (c1 c2 : M A) :
  never_returns c1 -> never_returns c2 -> never_returns (if b then c1 else c2).
Proof. destruct b; auto. Qed.

Section Returned.

Variable svc : Service.

(** [_download_blob] returns, when it returns, a coroutine object. *)
Lemma download_returns_coroutine o : returns is_coroutine (_download_blob svc o).
Proof.
  unfold _download_blob.
  apply returns_bind; intro. apply returns_bind; intro.
  apply returns_bind; intro body.
  intros st x H. injection H as <-. exact I.
Qed.

Lemma loads_never_returns_on_coroutine p :
  is_coroutine p -> never_returns (loads_utf8 svc p).
Proof. destruct p; [contradiction|]. intros _. apply never_returns_raise. Qed.

(** On a job with an empty memo, [get_results] of job.py returns no
    value: it raises, or runs out of fuel while polling. *)
Lemma job_get_results_never_returns fuel st j :
  memo st = None -> fst (aio_job.get_results svc fuel st) <> Ok j.
Proof.
  intros Hm. unfold memo in Hm.
  unfold aio_job.get_results. unfold bind at 1. unfold get_self at 1.
  rewrite Hm.
  apply never_returns_bind. intros _.
  apply never_returns_bind. intros me.
  apply never_returns_if; [apply never_returns_raise|].
  destruct (output_data_uri (details me)); [|apply never_returns_raise].
  apply (never_returns_after is_coroutine).
  - apply returns_if.
    + apply returns_bind. intro. apply download_returns_coroutine.
    + apply download_returns_coroutine.
  - intros p Hp. apply never_returns_bind_first, loads_never_returns_on_coroutine, Hp.
Qed.

End Returned.

(** X8.  [get_results] of job.py on a job the program holds never returns
    a value.  From start to end, on a job that is not completed: when the
    refreshes find it not terminal [length pre] times and then Succeeded
    with a URI that carries [se=] in its query, and the blob endpoint
    answers, all the call does is the polling followed by one download of
    that URI, and then it raises: line 71 returns the coroutine of
    [readall()] without awaiting it, and a coroutine has no [decode]. *)
Theorem get_results_polls_downloads_then_raises (svc : Service) (st : state) :
  job_py.reachable svc st ->
  (forall fuel j, fst (aio_job.get_results svc fuel st) <> Ok j)
  /\ (forall (pre : list JobDetails) (dT : JobDetails) (fuel : nat)
             (uri : string) (bc : BlobClient) (body : bytes),
        has_completed (self st) = false ->
        answers svc (gets st) (id (self st)) (pre ++ [dT]) ->
        forallb nonterminal pre = true ->
        status dT = "Succeeded" ->
        output_data_uri dT = Some uri ->
        lacks_sas_token uri = false ->
        from_blob_url svc (PyStr uri) = Reply bc ->
        download_blob svc bc = Reply body ->
        length pre < fuel ->
        aio_job.get_results svc fuel st
        = (Raise AttributeError,
           downloaded bc (slept_waited 30%float (pre ++ [dT]) st))).
Proof.
  intros Hr. apply job_reachable_memo in Hr. split.
  - intros fuel j. apply job_get_results_never_returns. exact Hr.
  - intros pre dT fuel uri bc body Hc Ha Hn Hs Hu Hl Hb Hp Hf.
    assert (HT : terminal dT = true)
      by (unfold terminal; rewrite Hs; reflexivity).
    pose proof (job_wait_completes svc pre dT fuel 30%float st Ha Hn HT Hf) as Hw.
    rewrite (job_get_results_after_wait svc fuel st _ Hr Hc Hw).
    set (sw := slept_waited 30%float (pre ++ [dT]) st).
    assert (Hd : details (self sw) = dT) by apply slept_waited_details.
    rewrite (job_get_results_presigned svc fuel sw uri).
    + unfold _download_blob, loads_utf8, await, bind, of_reply, emit, ret, raise.
      rewrite Hb. cbn [fst snd]. rewrite Hp. reflexivity.
    + rewrite <- Hr. apply poll_frame_memo, slept_waited_frame.
    + rewrite Hd. exact Hs.
    + rewrite Hd. exact Hu.
    + exact Hl.
Qed.

Lemma get_results_polls_downloads_then_raises_witness :
  aio_job.get_results (sample.service 2 (sample.succeeded sample.uri_signed)) 3
    (sample.fresh sample.waiting)
  = (Raise AttributeError,
     downloaded {| url := sample.uri_signed; account_name := "acct";
                   container_name := "job-1"; blob_name := "rawOutputData" |}
       (slept_waited 30%float
          ([sample.waiting; sample.waiting]
           ++ [sample.succeeded sample.uri_signed])
          (sample.fresh sample.waiting))).
Proof.
  apply (proj2 (get_results_polls_downloads_then_raises
                  (sample.service 2 (sample.succeeded sample.uri_signed))
                  (sample.fresh sample.waiting)
                  (job_py.reach_init _ _ _ _ _))
           [sample.waiting; sample.waiting]
           (sample.succeeded sample.uri_signed) 3 sample.uri_signed _ []).
  - reflexivity.
  - simpl. repeat split.
  - reflexivity.
  - reflexivity.
  - reflexivity.
  - reflexivity.
  - reflexivity.
  - reflexivity.
  - simpl. lia.
Defined.

(** ** What the methods of a job keep *)

Lemma poll_frame_identity st st' : poll_frame st st' -> identity st' = identity st.
Proof.
  intros (H1 & H2 & H3 & _). unfold identity. rewrite H1, H2, H3. reflexivity.
Qed.

Lemma keeps_identity_emit e : keeps identity (emit e).
Proof. intro st; reflexivity. Qed.

Section Identity.

Variable svc : Service.

Lemma keeps_identity_download o : keeps identity (_download_blob svc o).
Proof.
  unfold _download_blob, await.
  apply keeps_bind; [apply keeps_of_reply|intro].
  apply keeps_bind; [apply keeps_identity_emit|intro].
  apply keeps_bind; [apply keeps_of_reply|intro]. apply keeps_ret.
Qed.

Lemma keeps_identity_read_blob u : keeps identity (aio_job_job.read_blob svc u).
Proof.
  unfold aio_job_job.read_blob, await.
  apply keeps_bind; [apply keeps_of_reply|intro].
  apply keeps_bind; [apply keeps_identity_emit|intro].
  apply keeps_bind; [apply keeps_of_reply|intro]. apply keeps_ret.
Qed.

Lemma keeps_identity_refresh : keeps identity (refresh svc).
Proof. intro st. apply poll_frame_identity, refresh_frame. Qed.

Lemma keeps_identity_job_wait fuel m :
  keeps identity (aio_job.wait_until_completed svc fuel m).
Proof. intro st. apply poll_frame_identity, job_wait_frame. Qed.

Lemma keeps_identity_job_job_wait fuel m t pp :
  keeps identity (aio_job_job.wait_until_completed svc fuel m t pp).
Proof. intro st. apply poll_frame_identity, job_job_wait_frame. Qed.

Lemma keeps_identity_job_get_results fuel :
  keeps identity (aio_job.get_results svc fuel).
Proof.
  unfold aio_job.get_results.
  apply keeps_bind; [apply keeps_get_self|intro me].
  destruct (results me); [apply keeps_ret|].
  apply keeps_bind.
  { apply keeps_if; [apply keeps_identity_job_wait|apply keeps_ret]. }
  intros _. apply keeps_bind; [apply keeps_get_self|intro me'].
  apply keeps_if; [apply keeps_raise|].
  destruct (output_data_uri (details me')); [|apply keeps_raise].
  apply keeps_bind.
  { apply keeps_if.
    - apply keeps_bind; [apply keeps_of_reply|intro]. apply keeps_identity_download.
    - apply keeps_identity_download. }
  intro. apply keeps_bind; [apply keeps_loads|intro]. apply keeps_ret.
Qed.

Lemma keeps_identity_download_data uri :
  keeps identity (aio_job_job.download_data svc uri).
Proof.
  unfold aio_job_job.download_data. destruct uri; [|apply keeps_raise].
  apply keeps_if; [|apply keeps_identity_read_blob].
  apply keeps_bind; [apply keeps_get_self|intro].
  apply keeps_bind; [apply keeps_of_reply|intro].
  apply keeps_bind; [|intro; apply keeps_identity_read_blob].
  unfold await, _get_linked_storage_sas_uri, client_storage_sas_uri.
  apply keeps_bind; [|intro; apply keeps_ret].
  apply keeps_bind; [apply keeps_identity_emit|intro; apply keeps_of_reply].
Qed.

Lemma keeps_identity_job_job_get_results fuel t :
  keeps identity (aio_job_job.get_results svc fuel t).
Proof.
  unfold aio_job_job.get_results.
  apply keeps_bind; [apply keeps_get_self|intro me].
  destruct (results me); [apply keeps_ret|].
  apply keeps_bind.
  { apply keeps_if; [apply keeps_identity_job_job_wait|apply keeps_ret]. }
  intros _. apply keeps_bind; [apply keeps_get_self|intro me'].
  apply keeps_if; [apply keeps_raise|].
  apply keeps_bind; [apply keeps_identity_download_data|intro].
  apply keeps_bind; [apply keeps_loads|intro]. apply keeps_ret.
Qed.

(** [submit], as an equation. *)
Lemma submit_eq st :
  aio_job_job.submit svc st =
  match jobs_create svc (jd_id (details (self st))) (details (self st)) with
  | Reply d =>
      (Ok tt, {| self := set_details d (self st);
                 gets := gets st;
                 trace := trace (submitted st) |})
  | Fault e => (Raise e, submitted st)
  end.
Proof.
  unfold aio_job_job.submit, submit_job, client_jobs_create, await, bind,
    get_self, put_self, emit, of_reply, ret, raise, submitted; simpl.
  destruct (jobs_create svc (jd_id (details (self st))) (details (self st)));
    reflexivity.
Qed.

Lemma keeps_identity_submit : keeps identity (aio_job_job.submit svc).
Proof.
  intro st. rewrite submit_eq.
  destruct (jobs_create svc (jd_id (details (self st))) (details (self st)));
    reflexivity.
Qed.

(** ** How many blobs a call downloads *)

Lemma adds_downloads_keeps {A} (c : M A) n :
  keeps (fun st => downloads (trace st)) c -> adds_downloads n c.
Proof.
  intros H st. exists []. rewrite H, app_nil_r. split; [reflexivity|simpl; lia].
Qed.

Lemma adds_downloads_bind {A B} (c : M A) (k : A -> M B) a b :
  adds_downloads a c -> (forall x, adds_downloads b (k x)) ->
  adds_downloads (a + b) (bind c k).
Proof.
  intros Hc Hk st. unfold bind. destruct (Hc st) as (l & E & L).
  destruct (c st) as [[x|e|] st1]; cbn [snd] in *.
  - destruct (Hk x st1) as (l' & E' & L'). exists (l ++ l').
    rewrite E', E, app_assoc, length_app. split; [reflexivity|lia].
  - exists l. split; [exact E|lia].
  - exists l. split; [exact E|lia].
Qed.

Lemma adds_downloads_if {A} (b : bool) (c1 c2 : M A) n :
  adds_downloads n c1 -> adds_downloads n c2 ->
  adds_downloads n (if b then c1 else c2).
Proof. destruct b; auto. Qed.

Lemma keeps_downloads_emit e :
  is_download e = false -> keeps (fun st => downloads (trace st)) (emit e).
Proof.
  intros He st. unfold emit; simpl. rewrite downloads_app. simpl. rewrite He.
  apply app_nil_r.
Qed.

Lemma adds_downloads_download o : adds_downloads 1 (_download_blob svc o).
Proof.
  intro st. unfold _download_blob, await, bind, of_reply, emit, ret, raise.
  destruct (from_blob_url svc o) as [bc|e]; cbn [snd fst].
  - exists [EvDownloadBlob bc]. split; [|simpl; lia].
    destruct (download_blob svc bc); cbn [snd trace]; rewrite downloads_app;
      reflexivity.
  - exists []. rewrite app_nil_r. split; [reflexivity|simpl; lia].
Qed.

Lemma keeps_downloads_job_wait fuel m :
  keeps (fun st => downloads (trace st)) (aio_job.wait_until_completed svc fuel m).
Proof. intro st. apply (job_wait_frame svc fuel m st). Qed.

End Identity.

(** X9.  No method of a job, of either class, ever changes the job's
    [id], [workspace] or [results]: whatever the service answers, and
    whether the method returns or raises, only [details] can differ
    afterwards. *)
Theorem job_methods_keep_identity (svc : Service) (st : state) :
  (forall c, identity (job_job_py.run svc c st) = identity st)
  /\ (forall c, identity (job_py.run svc c st) = identity st).
Proof.
  split; intros c; destruct c; simpl.
  - apply keeps_identity_submit.
  - apply keeps_identity_refresh.
  - apply keeps_identity_job_job_wait.
  - apply keeps_identity_job_job_get_results.
  - apply keeps_identity_refresh.
  - apply keeps_identity_job_wait.
  - apply keeps_identity_job_get_results.
Qed.

(** X10.  One call of [get_results] of job.py downloads at most one blob,
    whatever the service answers: the downloads in the trace afterwards
    are those before, followed by at most one. *)
Theorem get_results_downloads_at_most_once (svc : Service) (fuel : nat)
    (st : state) :
  exists l,
    downloads (trace (snd (aio_job.get_results svc fuel st)))
    = downloads (trace st) ++ l
    /\ length l <= 1.
Proof.
  revert st. change (adds_downloads 1 (aio_job.get_results svc fuel)).
  unfold aio_job.get_results.
  apply (adds_downloads_bind _ _ 0 1);
    [apply adds_downloads_keeps, keeps_get_self|intro me].
  destruct (results me); [apply adds_downloads_keeps, keeps_ret|].
  apply (adds_downloads_bind _ _ 0 1).
  { apply adds_downloads_keeps, keeps_if;
      [apply keeps_downloads_job_wait|apply keeps_ret]. }
  intros _.
  apply (adds_downloads_bind _ _ 0 1);
    [apply adds_downloads_keeps, keeps_get_self|intro me'].
  apply adds_downloads_if; [apply adds_downloads_keeps, keeps_raise|].
  destruct (output_data_uri (details me'));
    [|apply adds_downloads_keeps, keeps_raise].
  apply (adds_downloads_bind _ _ 1 0).
  { apply adds_downloads_if.
    - apply (adds_downloads_bind _ _ 0 1);
        [apply adds_downloads_keeps, keeps_of_reply|intro].
      apply adds_downloads_download.
    - apply adds_downloads_download. }
  intro. apply adds_downloads_keeps.
  apply keeps_bind; [apply keeps_loads|intro]. apply keeps_ret.
Qed.

(** X11.  [submit] sends the cached details to the job API, keyed by the
    id in these details, and does nothing else to the world.  When the API
    answers, the cached details are replaced by the answer; when it
    refuses, its error is raised and the job is as before. *)
Theorem submit_replaces_details (svc : Service) (st : state) :
  let r := fst (aio_job_job.submit svc st) in
  let st' := snd (aio_job_job.submit svc st) in
  trace st' = trace st ++ [EvJobsCreate (jd_id (details (self st)))]
  /\ gets st' = gets st
  /\ identity st' = identity st
  /\ match jobs_create svc (jd_id (details (self st))) (details (self st)) with
     | Reply d => r = Ok tt /\ details (self st') = d
     | Fault e => r = Raise e /\ self st' = self st
     end.
Proof.
  cbv zeta. rewrite submit_eq.
  destruct (jobs_create svc (jd_id (details (self st))) (details (self st)));
    simpl; repeat split.
Qed.

(** X12.  Once an interval has reached the ceiling, every later interval
    is the ceiling itself (for a ceiling that is a number, not a NaN): the
    overshoot of the interval that first reaches it does not last. *)
Theorem poll_wait_stays_at_ceiling (m pw : float) (k : nat) :
  PrimFloat.leb m pw = true ->
  PrimFloat.leb m m = true ->
  poll_wait_after m pw (S k) = m.
Proof.
  intros Hpw Hm. revert pw Hpw. induction k as [|k IH]; intros pw Hpw.
  - cbn [poll_wait_after]. unfold next_poll_wait. rewrite Hpw. reflexivity.
  - change (poll_wait_after m pw (S (S k)))
      with (poll_wait_after m (next_poll_wait m pw) (S k)).
    apply IH. unfold next_poll_wait. rewrite Hpw. exact Hm.
Qed.

Lemma poll_wait_stays_at_ceiling_witness :
  poll_wait_after 30%float (poll_wait_after 30%float 0.2%float 13) (S 5)
  = 30%float.
Proof.
  apply (poll_wait_stays_at_ceiling 30%float
           (poll_wait_after 30%float 0.2%float 13) 5); reflexivity.
Defined.

(** ** More on the matcher *)

Section MorePattern.

Import aio_workspace resource_id_pattern resource_id_format.

Lemma append_empty_r (s : string) : (s ++ "")%string = s.
Proof. induction s as [|c s IH]; simpl; congruence. Qed.

Lemma ci_equal_refl s : ci_equal s s.
Proof. reflexivity. Qed.

Lemma map_string_append f (a b : string) :
  map_string f (a ++ b)%string = (map_string f a ++ map_string f b)%string.
Proof. induction a as [|c a IH]; simpl; congruence. Qed.

Lemma ascii_lower_idem c : ascii_lower (ascii_lower c) = ascii_lower c.
Proof. destruct c as [[] [] [] [] [] [] [] []]; reflexivity. Qed.

Lemma is_hex_dash_lower c : is_hex_dash (ascii_lower c) = is_hex_dash c.
Proof. destruct c as [[] [] [] [] [] [] [] []]; reflexivity. Qed.

Lemma not_space_slash_lower c :
  not_space_slash (ascii_lower c) = not_space_slash c.
Proof. destruct c as [[] [] [] [] [] [] [] []]; reflexivity. Qed.

Lemma all_chars_map p f s :
  (forall c, p (f c) = p c) -> all_chars p (map_string f s) = all_chars p s.
Proof. intros H. induction s as [|c s IH]; simpl; [reflexivity|]. rewrite H, IH. reflexivity. Qed.

Lemma ci_equal_lower l lit : ci_equal l lit -> ci_equal (map_string ascii_lower l) lit.
Proof.
  unfold ci_equal. intros <-. induction l as [|c l IH]; simpl; [reflexivity|].
  rewrite ascii_lower_idem. congruence.
Qed.

(** A canonical resource ID followed by [tail] matches exactly when
    [tail] is nothing or one newline. *)
Lemma match_formatted g1 g2 g3 tail :
  all_chars is_hex_dash g1 = true ->
  all_chars not_space_slash g2 = true ->
  all_chars not_space_slash g3 = true ->
  stops not_space_slash tail ->
  match_resource_id (format_resource_id g1 g2 g3 ++ tail)%string
  = if at_dollar tail then Some (g1, g2, g3) else None.
Proof.
  intros A1 A2 A3 Ht. unfold format_resource_id, match_resource_id.
  rewrite !append_assoc.
  rewrite strip_prefix_ci_complete by apply ci_equal_refl.
  rewrite span_complete; [|exact A1|reflexivity].
  rewrite strip_prefix_ci_complete by apply ci_equal_refl.
  rewrite span_complete; [|exact A2|reflexivity].
  rewrite strip_prefix_ci_complete by apply ci_equal_refl.
  rewrite span_complete; [|exact A3|exact Ht].
  reflexivity.
Qed.

End MorePattern.

(** ** More on Workspace construction *)

Section MoreConstruction.

Import aio_workspace resource_id_pattern resource_id_format.

Variable BASE_URL : string -> string.
Variable ARM_BASE_URL : string.

(** What a successful construction returns, field by field. *)
Lemma Workspace_init_Ok sub rg nm storage rid loc cred ws :
  Workspace_init BASE_URL ARM_BASE_URL sub rg nm storage rid loc cred = Ok ws ->
  exists a b c l,
    resolve_triple sub rg nm rid = (Some a, Some b, Some c)
    /\ a <> EmptyString /\ b <> EmptyString /\ c <> EmptyString
    /\ loc = Some l /\ l <> EmptyString
    /\ ws = let credential :=
              match cred with
              | None => DefaultAzureCredential false a ARM_BASE_URL
              | Some x => x
              end in
            {| credentials := credential;
               name := c;
               resource_group := b;
               subscription_id := a;
               storage := storage;
               location := normalize_location l;
               _client := {| qc_credential := credential;
                             qc_subscription_id := a;
                             qc_resource_group_name := b;
                             qc_workspace_name := c;
                             qc_base_url := BASE_URL (normalize_location l) |} |}.
Proof.
  unfold Workspace_init.
  destruct (resolve_triple sub rg nm rid) as [[a b] c].
  destruct (falsy a || falsy b || falsy c) eqn:T; [discriminate|].
  destruct (falsy loc) eqn:L; [discriminate|].
  apply orb_false_iff in T as [T Hc]. apply orb_false_iff in T as [Ha Hb].
  apply falsy_false in Ha as (x & -> & Hx).
  apply falsy_false in Hb as (y & -> & Hy).
  apply falsy_false in Hc as (z & -> & Hz).
  apply falsy_false in L as (l & -> & Hl).
  intros H. injection H as <-.
  exists x, y, z, l. repeat split; assumption.
Qed.

Lemma is_space_py_lower c : is_space (py_lower_char c) = is_space c.
Proof. destruct c as [[] [] [] [] [] [] [] []]; reflexivity. Qed.

Lemma py_lower_idem c : py_lower_char (py_lower_char c) = py_lower_char c.
Proof. destruct c as [[] [] [] [] [] [] [] []]; reflexivity. Qed.

Lemma map_string_idem f s :
  (forall c, f (f c) = f c) -> map_string f (map_string f s) = map_string f s.
Proof. intros H. induction s as [|c s IH]; simpl; [reflexivity|]. rewrite H, IH. reflexivity. Qed.

Lemma all_chars_filter p s : all_chars p (filter_string p s) = true.
Proof.
  induction s as [|c s IH]; simpl; [reflexivity|].
  destruct (p c) eqn:E; simpl; [rewrite E|]; exact IH.
Qed.

Lemma filter_string_all p s : all_chars p s = true -> filter_string p s = s.
Proof.
  induction s as [|c s IH]; simpl; [reflexivity|].
  intros H. apply andb_true_iff in H as [Hc Hs]. rewrite Hc, IH; auto.
Qed.

Lemma filter_string_none p s :
  all_chars (fun c => negb (p c)) s = true -> filter_string p s = EmptyString.
Proof.
  induction s as [|c s IH]; simpl; [reflexivity|].
  intros H. apply andb_true_iff in H as [Hc Hs].
  apply negb_true_iff in Hc. rewrite Hc. auto.
Qed.

Lemma normalize_location_no_space l :
  all_chars not_space (normalize_location l) = true.
Proof.
  unfold normalize_location. rewrite all_chars_map.
  - apply all_chars_filter.
  - intro c. unfold not_space. rewrite is_space_py_lower. reflexivity.
Qed.

Lemma normalize_location_lower l :
  map_string py_lower_char (normalize_location l) = normalize_location l.
Proof. unfold normalize_location. apply map_string_idem, py_lower_idem. Qed.

Lemma normalize_location_idem l :
  normalize_location (normalize_location l) = normalize_location l.
Proof.
  unfold normalize_location at 1.
  rewrite filter_string_all; [apply normalize_location_lower|].
  apply normalize_location_no_space.
Qed.

End MoreConstruction.

(** ** Properties of the matcher and of Workspace construction *)

Section WorkspaceProperties.

Import aio_workspace resource_id_pattern resource_id_format.

(** X13.  Round trip: the resource ID written from three components
    (hexadecimal digits and dashes; no white space, no slash) is matched,
    and gives back these components.  So is that ID followed by one
    newline; followed by two, it is not matched. *)
Theorem resource_id_round_trip (g1 g2 g3 : string) :
  all_chars is_hex_dash g1 = true ->
  all_chars not_space_slash g2 = true ->
  all_chars not_space_slash g3 = true ->
  match_resource_id (format_resource_id g1 g2 g3) = Some (g1, g2, g3)
  /\ match_resource_id (format_resource_id g1 g2 g3 ++ newline)%string
     = Some (g1, g2, g3)
  /\ match_resource_id (format_resource_id g1 g2 g3 ++ newline ++ newline)%string
     = None.
Proof.
  intros A1 A2 A3. split; [|split].
  - rewrite <- (append_empty_r (format_resource_id g1 g2 g3)).
    rewrite match_formatted by (auto; exact I). reflexivity.
  - rewrite match_formatted by (auto; reflexivity). reflexivity.
  - rewrite match_formatted by (auto; reflexivity). reflexivity.
Qed.

Lemma ci_equal_sym a b : ci_equal a b -> ci_equal b a.
Proof. unfold ci_equal. congruence. Qed.

Lemma ci_equal_trans a b c : ci_equal a b -> ci_equal b c -> ci_equal a c.
Proof. unfold ci_equal. congruence. Qed.

Lemma ci_equal_self_lower s : ci_equal s (map_string ascii_lower s).
Proof.
  unfold ci_equal. induction s as [|c s IH]; simpl; [reflexivity|].
  rewrite ascii_lower_idem. congruence.
Qed.

(** A string equal up to case to [a ++ b] splits into two strings equal
    up to case to [a] and to [b]. *)
Lemma ci_equal_split a b s' :
  ci_equal s' (a ++ b)%string ->
  exists a' b', s' = (a' ++ b')%string /\ ci_equal a' a /\ ci_equal b' b.
Proof.
  revert s'. induction a as [|c a IH]; intros s' H.
  - exists "", s'. repeat split. exact H.
  - unfold ci_equal in H. destruct s' as [|c' s']; simpl in H; [discriminate|].
    injection H as Hc Hs.
    destruct (IH s' Hs) as (a' & b' & -> & Ha & Hb).
    exists (String c' a'), b'. repeat split; [|exact Hb].
    unfold ci_equal in *. simpl. congruence.
Qed.

Lemma all_chars_ci p a a' :
  (forall c, p (ascii_lower c) = p c) ->
  ci_equal a' a -> all_chars p a' = all_chars p a.
Proof.
  intros Hp H.
  rewrite <- (all_chars_map p ascii_lower a') by exact Hp.
  rewrite <- (all_chars_map p ascii_lower a) by exact Hp.
  unfold ci_equal in H. rewrite H. reflexivity.
Qed.

Lemma ascii_lower_newline c :
  ascii_lower c = ascii_of_nat 10 -> c = ascii_of_nat 10.
Proof. destruct c as [[] [] [] [] [] [] [] []]; simpl; intros H; try reflexivity; discriminate H. Qed.

Lemma ci_equal_tail t t' :
  t = EmptyString \/ t = newline -> ci_equal t' t -> t' = t.
Proof.
  unfold ci_equal. intros [->| ->] H.
  - destruct t'; [reflexivity|discriminate].
  - destruct t' as [|c [|d t']]; try discriminate.
    simpl in H. injection H as H. apply ascii_lower_newline in H.
    rewrite H. reflexivity.
Qed.

(** Case does not matter to the pattern, in any part of the string. *)
Lemma matches_pattern_ci s s' g1 g2 g3 :
  ci_equal s s' -> matches_pattern s g1 g2 g3 ->
  exists h1 h2 h3,
    matches_pattern s' h1 h2 h3
    /\ ci_equal g1 h1 /\ ci_equal g2 h2 /\ ci_equal g3 h3.
Proof.
  intros E (l1 & l2 & l3 & tail & -> & H1 & H2 & H3 & A1 & A2 & A3 & D).
  apply ci_equal_sym in E.
  apply ci_equal_split in E. destruct E as (l1' & r & -> & E1 & E).
  apply ci_equal_split in E. destruct E as (h1 & r' & -> & G1 & E).
  apply ci_equal_split in E. destruct E as (l2' & r & -> & E2 & E).
  apply ci_equal_split in E. destruct E as (h2 & r' & -> & G2 & E).
  apply ci_equal_split in E. destruct E as (l3' & r & -> & E3 & E).
  apply ci_equal_split in E. destruct E as (h3 & tail' & -> & G3 & E).
  apply (ci_equal_tail _ _ D) in E. subst tail'.
  exists h1, h2, h3. split; [|auto using ci_equal_sym].
  exists l1', l2', l3', tail. repeat split.
  - eapply ci_equal_trans; eassumption.
  - eapply ci_equal_trans; eassumption.
  - eapply ci_equal_trans; eassumption.
  - rewrite (all_chars_ci _ _ _ is_hex_dash_lower G1). exact A1.
  - rewrite (all_chars_ci _ _ _ not_space_slash_lower G2). exact A2.
  - rewrite (all_chars_ci _ _ _ not_space_slash_lower G3). exact A3.
  - exact D.
Qed.

(** X14.  The match ignores the case of ASCII letters throughout.  Of two
    strings that differ only in the case of letters, either both are
    matched, with components that differ only in the case of letters, or
    neither is; and a string that is matched is matched in lower case,
    with the lower-cased components. *)
Theorem match_resource_id_ignores_case (s s' : string) :
  ci_equal s s' ->
  match match_resource_id s with
  | Some (g1, g2, g3) =>
      (exists h1 h2 h3,
         match_resource_id s' = Some (h1, h2, h3)
         /\ ci_equal g1 h1 /\ ci_equal g2 h2 /\ ci_equal g3 h3)
      /\ match_resource_id (map_string ascii_lower s)
         = Some (map_string ascii_lower g1, map_string ascii_lower g2,
                 map_string ascii_lower g3)
  | None =>
      match_resource_id s' = None
      /\ match_resource_id (map_string ascii_lower s) = None
  end.
Proof.
  intros E.
  assert (N : forall a b, ci_equal a b -> match_resource_id a = None ->
                          match_resource_id b = None).
  { intros a b Eab Ha.
    destruct (match_resource_id b) as [[[h1 h2] h3]|] eqn:Hb; [|reflexivity].
    apply match_resource_id_spec in Hb.
    destruct (matches_pattern_ci b a h1 h2 h3 (ci_equal_sym _ _ Eab) Hb)
      as (k1 & k2 & k3 & Hk & _).
    apply match_resource_id_spec in Hk. congruence. }
  destruct (match_resource_id s) as [[[g1 g2] g3]|] eqn:Hs.
  - split.
    + apply match_resource_id_spec in Hs.
      destruct (matches_pattern_ci s s' g1 g2 g3 E Hs)
        as (h1 & h2 & h3 & Hh & G).
      exists h1, h2, h3. split; [|exact G].
      apply match_resource_id_spec, Hh.
    + apply match_resource_id_spec in Hs.
      destruct Hs as (l1 & l2 & l3 & tail & -> & H1 & H2 & H3 & A1 & A2 & A3 & D).
      apply match_resource_id_spec.
      exists (map_string ascii_lower l1), (map_string ascii_lower l2),
        (map_string ascii_lower l3), tail.
      rewrite !map_string_append.
      repeat split.
      * repeat f_equal. destruct D as [->| ->]; reflexivity.
      * apply ci_equal_lower, H1.
      * apply ci_equal_lower, H2.
      * apply ci_equal_lower, H3.
      * rewrite all_chars_map; [exact A1|apply is_hex_dash_lower].
      * rewrite all_chars_map; [exact A2|apply not_space_slash_lower].
      * rewrite all_chars_map; [exact A3|apply not_space_slash_lower].
      * exact D.
  - split.
    + apply (N s s' E Hs).
    + apply (N s _ (ci_equal_self_lower s) Hs).
Qed.

Variable BASE_URL : string -> string.
Variable ARM_BASE_URL : string.

(** X15.  A Workspace constructed from a resource ID that matches the
    pattern is well formed: its subscription ID is a non-empty string of
    hexadecimal digits and dashes, its resource group and name are
    non-empty and free of white space and slashes, whatever explicit
    components were passed along. *)
Theorem workspace_from_resource_id_is_well_formed
    (sub rg nm storage loc : option string) (cred : option Credential)
    (rid g1 g2 g3 : string) (ws : Workspace) :
  matches_pattern rid g1 g2 g3 ->
  Workspace_init BASE_URL ARM_BASE_URL sub rg nm storage (Some rid) loc cred
  = Ok ws ->
  (subscription_id ws, resource_group ws, name ws) = (g1, g2, g3)
  /\ subscription_id ws <> EmptyString
  /\ resource_group ws <> EmptyString
  /\ name ws <> EmptyString
  /\ all_chars is_hex_dash (subscription_id ws) = true
  /\ all_chars not_space_slash (resource_group ws) = true
  /\ all_chars not_space_slash (name ws) = true.
Proof.
  intros M H.
  destruct M as (l1 & l2 & l3 & tail & E & H1 & H2 & H3 & A1 & A2 & A3 & D).
  assert (M : match_resource_id rid = Some (g1, g2, g3)).
  { apply match_resource_id_spec. exists l1, l2, l3, tail. repeat split; auto. }
  apply Workspace_init_Ok in H.
  destruct H as (a & b & c & l & R & Ha & Hb & Hc & _ & _ & ->).
  unfold resolve_triple in R. rewrite M in R. injection R as <- <- <-.
  cbn. repeat split; assumption.
Qed.

(** X16.  A resource ID that does not match the pattern is passed over
    in silence: construction goes by the explicit components, as if no
    resource ID had been given. *)
Theorem malformed_resource_id_is_ignored
    (sub rg nm storage loc : option string) (cred : option Credential)
    (rid : string) :
  (forall g1 g2 g3, ~ matches_pattern rid g1 g2 g3) ->
  Workspace_init BASE_URL ARM_BASE_URL sub rg nm storage (Some rid) loc cred
  = Workspace_init BASE_URL ARM_BASE_URL sub rg nm storage None loc cred.
Proof.
  intros H. apply match_resource_id_none in H.
  unfold Workspace_init, resolve_triple. rewrite H. reflexivity.
Qed.

(** X17.  The location of a constructed Workspace is the given location
    with its white space removed and in lower case: it holds no white
    space, lower-casing it changes nothing, and normalising it again
    changes nothing. *)
Theorem workspace_location_is_normalized
    (sub rg nm storage rid loc : option string) (cred : option Credential)
    (ws : Workspace) :
  Workspace_init BASE_URL ARM_BASE_URL sub rg nm storage rid loc cred = Ok ws ->
  exists l,
    loc = Some l
    /\ location ws = normalize_location l
    /\ all_chars not_space (location ws) = true
    /\ map_string py_lower_char (location ws) = location ws
    /\ normalize_location (location ws) = location ws.
Proof.
  intros H. apply Workspace_init_Ok in H.
  destruct H as (a & b & c & l & _ & _ & _ & _ & -> & _ & ->).
  exists l. cbn. repeat split.
  - apply normalize_location_no_space.
  - apply normalize_location_lower.
  - apply normalize_location_idem.
Qed.

(** X18.  The location is tested before it is normalised: a location
    made of white space only passes the test, and the Workspace is built
    with the empty location (and the base URL of the empty location). *)
Theorem blank_location_is_accepted
    (sub rg nm : string) (storage : option string) (cred : option Credential)
    (l : string) :
  sub <> EmptyString -> rg <> EmptyString -> nm <> EmptyString ->
  l <> EmptyString ->
  all_chars is_space l = true ->
  exists ws,
    Workspace_init BASE_URL ARM_BASE_URL (Some sub) (Some rg) (Some nm) storage
      None (Some l) cred = Ok ws
    /\ location ws = EmptyString
    /\ qc_base_url (_client ws) = BASE_URL EmptyString.
Proof.
  intros Hs Hr Hn Hl Hb.
  assert (N : normalize_location l = EmptyString).
  { unfold normalize_location. rewrite filter_string_none; [reflexivity|].
    clear -Hb. induction l as [|c l IH]; simpl in *; [reflexivity|].
    apply andb_true_iff in Hb as [Hc Hb]. rewrite Hc. simpl. auto. }
  unfold Workspace_init, resolve_triple.
  rewrite !falsy_Some_false by assumption. cbn [orb from_option].
  eexists. split; [reflexivity|]. cbn. rewrite N. split; reflexivity.
Qed.

(** X19.  A constructed Workspace is coherent: its client is set up with
    the Workspace's own credential, subscription ID, resource group and
    name, and with the base URL of its normalised location.  The
    credential is the one passed in; when none is passed it is the default
    credential for the resolved subscription.  The storage is kept as
    given. *)
Theorem workspace_client_is_coherent
    (sub rg nm stor rid loc : option string) (cred : option Credential)
    (ws : Workspace) :
  Workspace_init BASE_URL ARM_BASE_URL sub rg nm stor rid loc cred = Ok ws ->
  qc_credential (_client ws) = credentials ws
  /\ qc_subscription_id (_client ws) = subscription_id ws
  /\ qc_resource_group_name (_client ws) = resource_group ws
  /\ qc_workspace_name (_client ws) = name ws
  /\ qc_base_url (_client ws) = BASE_URL (location ws)
  /\ credentials ws =
     match cred with
     | Some c => c
     | None => DefaultAzureCredential false (subscription_id ws) ARM_BASE_URL
     end
  /\ storage ws = stor.
Proof.
  intros H. apply Workspace_init_Ok in H.
  destruct H as (a & b & c & l & _ & _ & _ & _ & _ & _ & ->).
  cbn. destruct cred; repeat split.
Qed.

(** X20.  Which error construction raises: with a resolved triple that
    lacks a component it is the "not fully specified" error, whether a
    location is given or not; with a complete triple and no location (or
    an empty one) it is the "no associated location" error. *)
Theorem workspace_error_names_the_cause
    (sub rg nm storage rid loc : option string) (cred : option Credential)
    (t : option string * option string * option string) :
  resolved sub rg nm rid t ->
  (incomplete t ->
   Workspace_init BASE_URL ARM_BASE_URL sub rg nm storage rid loc cred
   = Raise (ValueError msg_not_fully_specified))
  /\ (~ incomplete t -> falsy loc = true ->
      Workspace_init BASE_URL ARM_BASE_URL sub rg nm storage rid loc cred
      = Raise (ValueError msg_no_location)).
Proof.
  intros R. apply resolve_triple_resolved in R. destruct t as [[a b] c].
  unfold incomplete, Workspace_init. rewrite R. split.
  - intros [H|[H|H]]; rewrite H; rewrite ?orb_true_r; reflexivity.
  - intros N L.
    destruct (falsy a) eqn:Ha; [exfalso; tauto|].
    destruct (falsy b) eqn:Hb; [exfalso; tauto|].
    destruct (falsy c) eqn:Hc; [exfalso; tauto|].
    cbn [orb]. rewrite L. reflexivity.
Qed.

End WorkspaceProperties.

Lemma resource_id_round_trip_witness :
  aio_workspace.match_resource_id
    (resource_id_format.format_resource_id "f846b2bd-d0e2" "rg" "ws")
  = Some ("f846b2bd-d0e2", "rg", "ws")
  /\ aio_workspace.match_resource_id
       (resource_id_format.format_resource_id "f846b2bd-d0e2" "rg" "ws"
        ++ aio_workspace.newline)%string
     = Some ("f846b2bd-d0e2", "rg", "ws")
  /\ aio_workspace.match_resource_id
       (resource_id_format.format_resource_id "f846b2bd-d0e2" "rg" "ws"
        ++ aio_workspace.newline ++ aio_workspace.newline)%string
     = None.
Proof.
  apply (resource_id_round_trip "f846b2bd-d0e2" "rg" "ws"); reflexivity.
Defined.

Lemma match_resource_id_ignores_case_witness :
  (exists h1 h2 h3,
     aio_workspace.match_resource_id
       "/SUBSCRIPTIONS/F846B2BD/RESOURCEGROUPS/MY-RG/PROVIDERS/MICROSOFT.QUANTUM/WORKSPACES/WS"
     = Some (h1, h2, h3)
     /\ resource_id_pattern.ci_equal "f846b2bd" h1
     /\ resource_id_pattern.ci_equal "My-Rg" h2
     /\ resource_id_pattern.ci_equal "ws" h3)
  /\ aio_workspace.match_resource_id
       (aio_workspace.map_string aio_workspace.ascii_lower
          "/subscriptions/f846b2bd/resourceGroups/My-Rg/providers/Microsoft.Quantum/Workspaces/ws")
     = Some (aio_workspace.map_string aio_workspace.ascii_lower "f846b2bd",
             aio_workspace.map_string aio_workspace.ascii_lower "My-Rg",
             aio_workspace.map_string aio_workspace.ascii_lower "ws").
Proof.
  apply (match_resource_id_ignores_case
           "/subscriptions/f846b2bd/resourceGroups/My-Rg/providers/Microsoft.Quantum/Workspaces/ws"
           "/SUBSCRIPTIONS/F846B2BD/RESOURCEGROUPS/MY-RG/PROVIDERS/MICROSOFT.QUANTUM/WORKSPACES/WS").
  reflexivity.
Defined.

Lemma workspace_from_resource_id_is_well_formed_witness :
  exists ws,
    aio_workspace.Workspace_init sample_workspace.BASE_URL
      sample_workspace.ARM_BASE_URL (Some "not hex") (Some "a/b") None None
      (Some sample_workspace.resource_id) (Some "westus") None = Ok ws
    /\ ((subscription_id ws, resource_group ws, name ws)
        = ("f846b2bd-d0e2-4a1d-8141-4c6944a9d387", "rg", "ws")
        /\ subscription_id ws <> EmptyString
        /\ resource_group ws <> EmptyString
        /\ name ws <> EmptyString
        /\ resource_id_pattern.all_chars aio_workspace.is_hex_dash
             (subscription_id ws) = true
        /\ resource_id_pattern.all_chars aio_workspace.not_space_slash
             (resource_group ws) = true
        /\ resource_id_pattern.all_chars aio_workspace.not_space_slash
             (name ws) = true).
Proof.
  eexists. split; [reflexivity|].
  apply (workspace_from_resource_id_is_well_formed sample_workspace.BASE_URL
           sample_workspace.ARM_BASE_URL (Some "not hex") (Some "a/b") None None
           (Some "westus") None sample_workspace.resource_id).
  - apply match_resource_id_spec. reflexivity.
  - reflexivity.
Defined.

Lemma malformed_resource_id_is_ignored_witness :
  aio_workspace.Workspace_init sample_workspace.BASE_URL
    sample_workspace.ARM_BASE_URL (Some "f846b2bd") (Some "rg") (Some "ws") None
    (Some sample_workspace.malformed_resource_id) (Some "westus") None
  = aio_workspace.Workspace_init sample_workspace.BASE_URL
      sample_workspace.ARM_BASE_URL (Some "f846b2bd") (Some "rg") (Some "ws")
      None None (Some "westus") None.
Proof.
  apply (malformed_resource_id_is_ignored sample_workspace.BASE_URL
           sample_workspace.ARM_BASE_URL).
  apply match_resource_id_none. reflexivity.
Defined.

Lemma workspace_location_is_normalized_witness :
  exists ws l,
    aio_workspace.Workspace_init sample_workspace.BASE_URL
      sample_workspace.ARM_BASE_URL (Some "f846b2bd") (Some "rg") (Some "ws")
      None None (Some " West  US ") None = Ok ws
    /\ Some " West  US " = Some l
    /\ location ws = aio_workspace.normalize_location l
    /\ location ws = "westus".
Proof.
  eexists.
  destruct (workspace_location_is_normalized sample_workspace.BASE_URL
              sample_workspace.ARM_BASE_URL (Some "f846b2bd") (Some "rg")
              (Some "ws") None None (Some " West  US ") None _ eq_refl)
    as (l & E & N & _).
  exists l. repeat split; [exact E|exact N].
Defined.

Lemma blank_location_is_accepted_witness :
  exists ws,
    aio_workspace.Workspace_init sample_workspace.BASE_URL
      sample_workspace.ARM_BASE_URL (Some "f846b2bd") (Some "rg") (Some "ws")
      None None (Some "  ") None = Ok ws
    /\ location ws = EmptyString
    /\ qc_base_url (_client ws) = sample_workspace.BASE_URL EmptyString.
Proof.
  apply (blank_location_is_accepted sample_workspace.BASE_URL
           sample_workspace.ARM_BASE_URL "f846b2bd" "rg" "ws" None None "  ");
    try discriminate; reflexivity.
Defined.

Lemma workspace_client_is_coherent_witness :
  exists ws,
    aio_workspace.Workspace_init sample_workspace.BASE_URL
      sample_workspace.ARM_BASE_URL None None None (Some "connection-string")
      (Some sample_workspace.resource_id) (Some "West US") None = Ok ws
    /\ qc_subscription_id (_client ws) = subscription_id ws
    /\ qc_base_url (_client ws) = sample_workspace.BASE_URL (location ws)
    /\ credentials ws
       = DefaultAzureCredential false (subscription_id ws)
           sample_workspace.ARM_BASE_URL.
Proof.
  eexists. split; [reflexivity|].
  destruct (workspace_client_is_coherent sample_workspace.BASE_URL
              sample_workspace.ARM_BASE_URL None None None
              (Some "connection-string") (Some sample_workspace.resource_id)
              (Some "West US") None _ eq_refl)
    as (_ & H2 & _ & _ & H5 & H6 & _).
  repeat split; assumption.
Defined.

Lemma workspace_error_names_the_cause_witness :
  aio_workspace.Workspace_init sample_workspace.BASE_URL
    sample_workspace.ARM_BASE_URL (Some "f846b2bd") None (Some "ws") None None
    None None
  = Raise (ValueError aio_workspace.msg_not_fully_specified)
  /\ aio_workspace.Workspace_init sample_workspace.BASE_URL
       sample_workspace.ARM_BASE_URL (Some "f846b2bd") (Some "rg") (Some "ws")
       None None (Some "") None
     = Raise (ValueError aio_workspace.msg_no_location).
Proof.
  split.
  - apply (proj1 (workspace_error_names_the_cause sample_workspace.BASE_URL
                    sample_workspace.ARM_BASE_URL (Some "f846b2bd") None
                    (Some "ws") None None None None _
                    (resource_id_pattern.resolved_no_id _ _ _ _ eq_refl))).
    right. left. reflexivity.
  - apply (proj2 (workspace_error_names_the_cause sample_workspace.BASE_URL
                    sample_workspace.ARM_BASE_URL (Some "f846b2bd") (Some "rg")
                    (Some "ws") None None (Some "") None _
                    (resource_id_pattern.resolved_no_id _ _ _ _ eq_refl))).
    + intros [H|[H|H]]; discriminate.
    + reflexivity.
Defined.

(** ** The jobs a Workspace hands out *)

Section Directory.

Import aio_workspace_jobs.

Variable datetime : Type.
Variable matches_filter :
  Job -> option string -> option string -> option datetime -> bool.

(** The loop appends to [result] the matching jobs, in the order of the
    listing. *)
Lemma collect_filter ws nm s ca jobs : forall result,
  collect datetime matches_filter ws nm s ca jobs result
  = result ++ filter (fun j => matches_filter j nm s ca) (map (Job_init ws) jobs).
Proof.
  induction jobs as [|d jobs IH]; intros result; cbn [collect map filter].
  - symmetry. apply app_nil_r.
  - destruct (matches_filter (Job_init ws d) nm s ca).
    + rewrite IH, <- app_assoc. reflexivity.
    + apply IH.
Qed.

Lemma list_jobs_filter_eq dir ws nm s ca :
  fst (list_jobs datetime matches_filter dir ws nm s ca)
  = match list_fault dir with
    | Some e => Raise e
    | None =>
        Ok (filter (fun j => matches_filter j nm s ca)
              (map (Job_init ws) (listed dir)))
    end.
Proof.
  unfold list_jobs. rewrite collect_filter.
  destruct (list_fault dir); reflexivity.
Qed.

Lemma fresh_job_init ws d : fresh_job ws (Job_init ws d).
Proof. repeat split. Qed.

Lemma filter_map_swap {A B} (f : B -> bool) (g : A -> B) (l : list A) :
  filter f (map g l) = map g (filter (fun x => f (g x)) l).
Proof.
  induction l as [|x l IH]; cbn [map filter]; [reflexivity|].
  destruct (f (g x)); cbn [map]; rewrite IH; reflexivity.
Qed.

(** X21.  [list_jobs] goes through the listing in order and keeps the
    items whose Job matches the filter: the result is these items, in the
    order of the listing, each wrapped as a Job of this Workspace; every
    listed item that matches is in it, and every job in it matches.  When
    the listing fails, its error is raised and nothing is returned. *)
Theorem list_jobs_returns_matching_in_order (dir : Directory) (ws : Workspace)
    (name_match status : option string) (created_after : option datetime) :
  match list_fault dir with
  | Some e =>
      fst (list_jobs datetime matches_filter dir ws name_match status
             created_after) = Raise e
  | None =>
      exists l,
        fst (list_jobs datetime matches_filter dir ws name_match status
               created_after) = Ok l
        /\ l = map (Job_init ws)
                 (filter (fun d => matches_filter (Job_init ws d) name_match
                                     status created_after) (listed dir))
        /\ (forall d,
              In d (listed dir) ->
              matches_filter (Job_init ws d) name_match status created_after
              = true ->
              In (Job_init ws d) l)
        /\ (forall j,
              In j l ->
              matches_filter j name_match status created_after = true)
  end.
Proof.
  pose proof (list_jobs_filter_eq dir ws name_match status created_after) as E.
  destruct (list_fault dir) as [e|]; [exact E|].
  eexists. split; [exact E|]. rewrite filter_map_swap. split; [reflexivity|].
  split.
  - intros d Hd Hm. apply in_map, filter_In. split; assumption.
  - intros j Hj. apply in_map_iff in Hj as (d & <- & Hd).
    apply filter_In in Hd as [_ Hm]. exact Hm.
Qed.

End Directory.

(** X22.  Every Job a Workspace hands out, from [get_job], [submit_job],
    [cancel_job] or [list_jobs], is bound to that Workspace, has an empty
    memo, and has the id found in its details (for [get_job] that is the
    id the service answered, whatever id was asked for). *)
Theorem workspace_hands_out_fresh_jobs (svc : Service)
    (dir : aio_workspace_jobs.Directory) (ws : Workspace) :
  (forall job_id st j,
     fst (get_job svc ws job_id st) = Ok j -> aio_workspace_jobs.fresh_job ws j)
  /\ (forall job st j,
        fst (submit_job svc ws job st) = Ok j ->
        aio_workspace_jobs.fresh_job ws j)
  /\ (forall job j,
        fst (aio_workspace_jobs.cancel_job dir ws job) = Ok j ->
        aio_workspace_jobs.fresh_job ws j)
  /\ (forall datetime matches_filter name_match status created_after l,
        fst (aio_workspace_jobs.list_jobs datetime matches_filter dir ws
               name_match status created_after) = Ok l ->
        Forall (aio_workspace_jobs.fresh_job ws) l).
Proof.
  split; [|split; [|split]].
  - intros job_id st j.
    unfold get_job, client_jobs_get, await, bind, ret.
    destruct (jobs_get svc (gets st) job_id); cbn [fst]; [|discriminate].
    intros H. injection H as <-. apply fresh_job_init.
  - intros job st j.
    unfold submit_job, client_jobs_create, await, bind, emit, of_reply, ret, raise.
    destruct (jobs_create svc (jd_id (details job)) (details job));
      cbn [fst]; [|discriminate].
    intros H. injection H as <-. apply fresh_job_init.
  - intros job j. unfold aio_workspace_jobs.cancel_job.
    destruct (aio_workspace_jobs.cancel_reply dir (jd_id (details job)));
      [|discriminate].
    destruct (aio_workspace_jobs.get_reply dir (id job)); [|discriminate].
    cbn [fst]. intros H. injection H as <-. apply fresh_job_init.
  - intros datetime matches_filter nm s ca l.
    rewrite list_jobs_filter_eq.
    destruct (aio_workspace_jobs.list_fault dir); [discriminate|].
    intros H. injection H as <-.
    apply Forall_forall. intros j Hj. apply filter_In in Hj as [Hj _].
    apply in_map_iff in Hj as (d & <- & _). apply fresh_job_init.
Qed.

Lemma workspace_hands_out_fresh_jobs_witness :
  Forall (aio_workspace_jobs.fresh_job sample.ws)
    [Job_init sample.ws (sample.succeeded sample.uri_signed);
     Job_init sample.ws (sample.succeeded sample.uri_bare)].
Proof.
  apply (proj2 (proj2 (proj2 (workspace_hands_out_fresh_jobs
                                (sample.service 0 sample.waiting)
                                sample_jobs.directory sample.ws)))
           nat sample_jobs.by_status None (Some "Succeeded") None).
  reflexivity.
Defined.
